(** * Dependency Monkey: stack generation over the dependency graph

    A shallow embedding of [thoth/adviser/dependency_monkey.py].  Python
    objects that are mutated in place (the [hashes] list of a
    [PackageVersion], the standard output, the file system, the logger, the
    global [random] module) live in an explicit [World]; every function of
    the module is a computation in a state-and-exception monad over that
    world.  Calls that leave the process (package index, graph database,
    Amun) are answered by an oracle that sees the whole history of external
    calls, and are recorded in a trace. *)

From Stdlib Require Import ZArith String Ascii Lia.
From stdpp Require Import base option list strings gmap.

Open Scope Z_scope.

(** ** Exceptions and outcomes *)

(** The exceptions the module can meet; all of them derive from Python's
    [Exception], so an [except Exception] clause catches each. *)
Inductive exn :=
| NameError (name : string)
| ValueError (msg : string)
| TypeError (msg : string)
| KeyError (key : string)
| IndexError (msg : string)
| OSError (msg : string)
| ExternalError (msg : string).

Inductive outcome (A : Type) :=
| Ok (a : A)
| Raise (e : exn).
Arguments Ok {A} a.
Arguments Raise {A} e.

(** ** Data *)

(** Structured values as [json.loads] and [Project.to_dict] produce them. *)
#[warnings="-register-all"]
Inductive json :=
| JNull
| JBool (b : bool)
| JNum (z : Z)
| JStr (s : string)
| JList (l : list json)
| JDict (d : list (string * json)).

(** A [PackageVersion] object: [pv_id] is the identity of the object, the
    key under which the world keeps its mutable [hashes] list. *)
Record PackageVersion := {
  pv_id : nat;
  name : string;
  locked_version : string;
}.

Record PipfileLock := {
  packages : list PackageVersion;
  dev_packages : list PackageVersion;
}.

Record Project := {
  pipfile : list (string * string);
  pipfile_lock : PipfileLock;
}.

(** Package name to its ordered candidates. *)
Definition DependencyGraph : Type := list (string * list PackageVersion).

(** A call that left the process, with the answer it got. *)
Inductive event :=
| EvFromProject (project : Project) (resp : outcome DependencyGraph)
| EvGetPackageHashes (index_url : string) (pv : PackageVersion)
    (resp : outcome (list (gmap string string)))
| EvAmunInspect (url : string) (context : list (string * json))
    (resp : outcome (gmap string string)).

Inductive fsnode :=
| Dir
| File (content : string).

Inductive log_record :=
| LogDebug (msg : string) (args : list string)
| LogInfo (msg : string) (args : list string)
| LogWarning (msg : string)
| LogError (msg : string) (args : list string)
| LogException (msg : string) (e : exn).

(** What the module takes from elsewhere: the standard library's [random]
    and [json], the configuration, and the collaborators that
    [thoth.adviser.python] provides. *)
Class Externals := {
  RandomState : Type;
  random_seed : Z → RandomState;
  DECISISON_FUNCTIONS :
    list (string * (list PackageVersion → RandomState → bool * RandomState));
  config_warehouses : list string;
  index_get_package_hashes :
    list event → string → string → string → outcome (list (gmap string string));
  graph_from_project : list event → Project → outcome DependencyGraph;
  amun_service :
    list event → string → list (string * json) → outcome (gmap string string);
  project_to_dict : Project → gmap nat (list string) → json;
  pipfile_text : Project → string;
  pipfile_lock_text : Project → gmap nat (list string) → string;
  json_loads : string → outcome json;
  json_dumps_sorted_indent2 : json → string;
}.

Section DependencyMonkey.
Context `{E : Externals}.

Record World := {
  w_hashes : gmap nat (list string);
  w_random : RandomState;
  w_entropy : Z;
  w_trace : list event;
  w_stdout : list string;
  w_fs : gmap string fsnode;
  w_log : list log_record;
}.

(** ** The monad *)

Definition M (A : Type) : Type := World → outcome A * World.

Definition ret {A} (a : A) : M A := λ w, (Ok a, w).

Definition raise {A} (e : exn) : M A := λ w, (Raise e, w).

Definition bind {A B} (m : M A) (k : A → M B) : M B :=
  λ w, match m w with
       | (Ok a, w') => k a w'
       | (Raise e, w') => (Raise e, w')
       end.

(** [try: m except Exception as exc: h exc] *)
Definition try_except {A} (m : M A) (h : exn → M A) : M A :=
  λ w, match m w with
       | (Ok a, w') => (Ok a, w')
       | (Raise e, w') => h e w'
       end.

Notation "'let!' x ':=' m 'in' k" := (bind m (λ x, k))
  (at level 10, x binder, m at level 100, k at level 200).
Notation "m ';;!' k" := (bind m (λ _, k))
  (at level 100, k at level 200, right associativity).

(** [for x in l: body x] *)
Fixpoint for_each {A} (l : list A) (body : A → M unit) : M unit :=
  match l with
  | [] => ret tt
  | x :: l' => body x ;;! for_each l' body
  end.

(** ** Primitive effects *)

Definition hashes_of (h : gmap nat (list string)) (i : nat) : list string :=
  default [] (h !! i).

Definition set_hashes (hs : gmap nat (list string)) (w : World) : World :=
  {| w_hashes := hs; w_random := w_random w; w_entropy := w_entropy w;
     w_trace := w_trace w; w_stdout := w_stdout w; w_fs := w_fs w;
     w_log := w_log w |}.

Definition set_random (r : RandomState) (w : World) : World :=
  {| w_hashes := w_hashes w; w_random := r; w_entropy := w_entropy w;
     w_trace := w_trace w; w_stdout := w_stdout w; w_fs := w_fs w;
     w_log := w_log w |}.

Definition set_trace (t : list event) (w : World) : World :=
  {| w_hashes := w_hashes w; w_random := w_random w; w_entropy := w_entropy w;
     w_trace := t; w_stdout := w_stdout w; w_fs := w_fs w;
     w_log := w_log w |}.

Definition set_stdout (o : list string) (w : World) : World :=
  {| w_hashes := w_hashes w; w_random := w_random w; w_entropy := w_entropy w;
     w_trace := w_trace w; w_stdout := o; w_fs := w_fs w;
     w_log := w_log w |}.

Definition set_fs (fs : gmap string fsnode) (w : World) : World :=
  {| w_hashes := w_hashes w; w_random := w_random w; w_entropy := w_entropy w;
     w_trace := w_trace w; w_stdout := w_stdout w; w_fs := fs;
     w_log := w_log w |}.

Definition set_log (l : list log_record) (w : World) : World :=
  {| w_hashes := w_hashes w; w_random := w_random w; w_entropy := w_entropy w;
     w_trace := w_trace w; w_stdout := w_stdout w; w_fs := w_fs w;
     w_log := l |}.

(** [package_version.hashes] *)
Definition get_hashes (pv : PackageVersion) : M (list string) :=
  λ w, (Ok (hashes_of (w_hashes w) (pv_id pv)), w).

(** [package_version.hashes.append(h)] *)
Definition hashes_append (pv : PackageVersion) (h : string) : M unit :=
  λ w, (Ok tt,
        set_hashes
          (<[pv_id pv := hashes_of (w_hashes w) (pv_id pv) ++ [h]]> (w_hashes w)) w).

(** [logger.<level>(...)] *)
Definition log (r : log_record) : M unit :=
  λ w, (Ok tt, set_log (w_log w ++ [r]) w).

(** Completing an external call: the answer is recorded, a failure is
    raised in the caller. *)
Definition external {A} (ev : outcome A → event) (resp : list event → outcome A)
  : M A :=
  λ w, let r := resp (w_trace w) in (r, set_trace (w_trace w ++ [ev r]) w).

(** [d[key]] on a dict of strings *)
Definition getitem (d : gmap string string) (key : string) : M string :=
  match d !! key with
  | Some v => ret v
  | None => raise (KeyError key)
  end.

(** [Source(url).get_package_hashes(name, version)] *)
Definition get_package_hashes (package_index : string) (pv : PackageVersion)
  : M (list (gmap string string)) :=
  external (EvGetPackageHashes package_index pv)
    (λ t, index_get_package_hashes t package_index (name pv) (locked_version pv)).

(** ** [_fill_package_digests] *)

(** The body of the loop over the locked packages. *)
Definition fill_package_version (package_index : string)
    (package_version : PackageVersion) : M unit :=
  let! hs := get_hashes package_version in
  match hs with
  | _ :: _ => ret tt
  | [] =>
      let! scanned_hashes := get_package_hashes package_index package_version in
      for_each scanned_hashes (λ entry,
        let! digest := getitem entry "sha256" in
        hashes_append package_version ("sha256:" +:+ digest))
  end.

Definition _fill_package_digests (generated_project : Project) : M Project :=
  let! package_index :=
    match config_warehouses with
    | url :: _ => ret url
    | [] => raise (IndexError "list index out of range")
    end in
  for_each (packages (pipfile_lock generated_project)
              ++ dev_packages (pipfile_lock generated_project))
           (fill_package_version package_index) ;;!
  ret generated_project.

(** ** Names bound at module level *)

(** A name used in a function body is looked up in the module's globals when
    the body runs; [globals] lists the names that are bound there. *)
Definition load_global (globals : list string) (name : string) : M unit :=
  if bool_decide (name ∈ globals) then ret tt else raise (NameError name).

(** ** Formatting and paths *)

Definition digit (d : Z) : ascii := ascii_of_nat (48 + Z.to_nat d).

Fixpoint decimal_aux (fuel : nat) (n : Z) : string :=
  match fuel with
  | O => EmptyString
  | S fuel' =>
      if n <? 10 then String (digit n) EmptyString
      else decimal_aux fuel' (n / 10) +:+ String (digit (n mod 10)) EmptyString
  end.

(** [str(n)] for [n >= 0] *)
Definition decimal (n : Z) : string :=
  decimal_aux (S (Z.to_nat (Z.log2 n))) n.

Fixpoint zeros (k : nat) : string :=
  match k with
  | O => EmptyString
  | S k' => String "0" (zeros k')
  end.

(** [f'{n:05d}']: the sign first, then zeros up to a width of five, then the
    digits. *)
Definition format_05d (n : Z) : string :=
  if n <? 0
  then String "-" (zeros (4 - String.length (decimal (- n))) +:+ decimal (- n))
  else zeros (5 - String.length (decimal n)) +:+ decimal n.

Fixpoint string_last (s : string) : option ascii :=
  match s with
  | EmptyString => None
  | String c EmptyString => Some c
  | String _ s' => string_last s'
  end.

(** [os.path.join(a, b)] of [posixpath] *)
Definition os_path_join (a b : string) : string :=
  if String.prefix "/" b then b
  else match string_last a with
       | None => b
       | Some c => if Ascii.eqb c "/" then a +:+ b else a +:+ "/" +:+ b
       end.

(** The directories above [path]: its proper prefixes that a [/] follows. *)
Fixpoint ancestors_aux (pre rest : string) : list string :=
  match rest with
  | EmptyString => []
  | String c rest' =>
      (if Ascii.eqb c "/" && negb (String.eqb pre EmptyString) then [pre] else [])
        ++ ancestors_aux (pre +:+ String c EmptyString) rest'
  end.

Definition ancestors (path : string) : list string :=
  ancestors_aux EmptyString path.

(** ** File system, standard output *)

Definition is_file (fs : gmap string fsnode) (p : string) : bool :=
  match fs !! p with
  | Some (File _) => true
  | _ => false
  end.

(** [os.path.isdir(p)] *)
Definition os_path_isdir (p : string) : M bool :=
  λ w, (Ok match w_fs w !! p with Some Dir => true | _ => false end, w).

(** [os.makedirs(path, exist_ok=True)]: the leaf and every directory above
    it; a regular file in the way is an error. *)
Definition os_makedirs (path : string) : M unit :=
  λ w, if String.eqb path EmptyString
       then (Raise (OSError "FileNotFoundError"), w)
       else if existsb (is_file (w_fs w)) (ancestors path ++ [path])
       then (Raise (OSError "FileExistsError"), w)
       else (Ok tt,
             set_fs (foldr (λ d fs, <[d := Dir]> fs) (w_fs w)
                           (ancestors path ++ [path])) w).

(** [open(p, 'w').write(content)] *)
Definition write_file (p content : string) : M unit :=
  λ w, match w_fs w !! p with
       | Some Dir => (Raise (OSError "IsADirectoryError"), w)
       | _ => (Ok tt, set_fs (<[p := File content]> (w_fs w)) w)
       end.

(** [sys.stdout.write(s)] *)
Definition write_stdout (s : string) : M unit :=
  λ w, (Ok tt, set_stdout (w_stdout w ++ [s]) w).

(** ** The [Project] interface *)

(** [generated_project.to_dict()] *)
Definition to_dict (p : Project) : M json :=
  λ w, (Ok (project_to_dict p (w_hashes w)), w).

(** Modelled from the spec: [Project.to_files], which is not part of this
    module; section 6 gives a project a serialization to a pair of files,
    the manifest and the lock. *)
Definition to_files (p : Project) (pipfile_path pipfile_lock_path : string)
  : M unit :=
  write_file pipfile_path (pipfile_text p) ;;!
  let! lock := (λ w, (Ok (pipfile_lock_text p (w_hashes w)), w)) in
  write_file pipfile_lock_path lock.

(** ** The three sinks *)

(** [context['python'] = v], the key being a string: a dict takes the item;
    a list wants an integer index; the other values take no item at all.
    Each raises the [TypeError] of its type. *)
Definition setitem (context : json) (key : string) (v : json)
  : M (list (string * json)) :=
  match context with
  | JDict d =>
      ret (if existsb (λ kv, String.eqb (fst kv) key) d
           then map (λ kv, if String.eqb (fst kv) key then (key, v) else kv) d
           else d ++ [(key, v)])
  | JList _ =>
      raise (TypeError "list indices must be integers or slices, not str")
  | JStr _ =>
      raise (TypeError "'str' object does not support item assignment")
  | JNum _ =>
      raise (TypeError "'int' object does not support item assignment")
  | JBool _ =>
      raise (TypeError "'bool' object does not support item assignment")
  | JNull =>
      raise (TypeError "'NoneType' object does not support item assignment")
  end.

Definition _dm_amun_inspect_wrapper (globals : list string) (output : string)
    (context : json) (generated_project : Project) (count : Z)
  : M (option string) :=
  let! python := to_dict generated_project in
  let! context := setitem context "python" python in
  try_except
    (load_global globals "amun_inspect" ;;!
     let! response :=
       external (EvAmunInspect output context)
                (λ t, amun_service t output context) in
     let! inspection_id := getitem response "inspection_id" in
     log (LogInfo "Submitted Amun inspection #%d: %r"
                  [decimal count; inspection_id]) ;;!
     log (LogDebug "Full Amun response: %s" []) ;;!
     let! inspection_id := getitem response "inspection_id" in
     ret (Some inspection_id))
    (λ exc,
     log (LogException "Failed to submit stack to Amun analysis: %s" exc) ;;!
     ret None).

Definition _dm_amun_directory_output (output : string)
    (generated_project : Project) (count : Z) : M (option string) :=
  log (LogDebug "Writing stack %d" [decimal count]) ;;!
  let path := os_path_join output (format_05d count) in
  os_makedirs path ;;!
  to_files generated_project
           (os_path_join path "Pipfile") (os_path_join path "Pipfile.lock") ;;!
  ret (Some path).

Definition _dm_stdout_output (globals : list string)
    (generated_project : Project) (count : Z) : M (option string) :=
  load_global globals "json" ;;!
  let! d := to_dict generated_project in
  load_global globals "sys" ;;!
  write_stdout (json_dumps_sorted_indent2 d) ;;!
  ret None.

(** ** The walk over the dependency graph *)

(** A generator as the loop sees it: it ends, hands over a project, or
    first asks the decision function about a partial assignment. *)
Inductive Generator :=
| GStop
| GYield (p : Project) (rest : Generator)
| GAsk (partial : list PackageVersion) (k : bool → Generator).

(** [DependencyGraph.from_project(project)] *)
Definition from_project (project : Project) : M DependencyGraph :=
  external (EvFromProject project) (λ t, graph_from_project t project).

(** Modelled from the spec: [DependencyGraph.walk], which is not part of
    this module.  Section 4.3: a depth-first assignment, one package name
    after the other, each candidate in order; at each partial assignment the
    decision function says whether the path is followed; a complete
    assignment is a project. *)
Fixpoint walk_from (graph : DependencyGraph) (assignment : list PackageVersion)
    (after : Generator) : Generator :=
  match graph with
  | [] =>
      GYield {| pipfile := map (λ pv, (name pv, locked_version pv)) assignment;
                pipfile_lock := {| packages := assignment; dev_packages := [] |} |}
             after
  | (_, candidates) :: graph' =>
      foldr (λ candidate later,
               GAsk (assignment ++ [candidate])
                    (λ b, if b then walk_from graph' (assignment ++ [candidate]) later
                          else later))
            after candidates
  end.

Definition walk (graph : DependencyGraph) : Generator :=
  walk_from graph [] GStop.

(** Calling the decision function: it may draw from the [random] module. *)
Definition decide_on
    (decision_function : list PackageVersion → RandomState → bool * RandomState)
    (partial : list PackageVersion) : M bool :=
  λ w, let '(b, r) := decision_function partial (w_random w) in
       (Ok b, set_random r w).

(** ** [_do_dependency_monkey] *)

Record result := {
  output : list string;
  computed : Z;
}.

(** [if entry: result['output'].append(entry)]: [None] and the empty string
    are false. *)
Definition append_entry (out : list string) (entry : option string)
  : list string :=
  match entry with
  | Some (String c e) => out ++ [String c e]
  | _ => out
  end.

(** The [for] loop, with the locals [computed] and [result['output']]. *)
Fixpoint dm_loop (gen : Generator)
    (output_function : Project → Z → M (option string))
    (decision_function : list PackageVersion → RandomState → bool * RandomState)
    (count : option Z) (dry_run : bool)
    (computed : Z) (out : list string) : M result :=
  match gen with
  | GStop => ret {| output := out; computed := computed |}
  | GAsk partial k =>
      let! b := decide_on decision_function partial in
      dm_loop (k b) output_function decision_function count dry_run computed out
  | GYield generated_project rest =>
      let computed := computed + 1 in
      let! generated_project := _fill_package_digests generated_project in
      let! out :=
        (if negb dry_run
         then let! entry := output_function generated_project computed in
              ret (append_entry out entry)
         else ret out) in
      if match count with Some c => c <=? computed | None => false end
      then ret {| output := out; computed := computed |}
      else dm_loop rest output_function decision_function count dry_run
                   computed out
  end.

Definition _do_dependency_monkey (project : Project)
    (output_function : Project → Z → M (option string))
    (decision_function : list PackageVersion → RandomState → bool * RandomState)
    (count : option Z) (dry_run : bool) : M result :=
  let! dependency_graph := from_project project in
  dm_loop (walk dependency_graph) output_function decision_function
          count dry_run 0 [].

(** ** [dependency_monkey] *)

Inductive retval :=
| RetResult (r : result)
| RetInt (code : Z).

(** [random.seed(seed)]; without a seed the generator is seeded from the
    operating system. *)
Definition random_seed_call (seed : option Z) : M unit :=
  λ w, (Ok tt, set_random (random_seed (default (w_entropy w) seed)) w).

Definition lookup_decision (decision : option string)
  : option (list PackageVersion → RandomState → bool * RandomState) :=
  match decision with
  | None => None
  | Some d =>
      snd <$> find (λ kv, String.eqb (fst kv) d) DECISISON_FUNCTIONS
  end.

(** [return _do_dependency_monkey(...)] *)
Definition run_monkey (project : Project)
    (output_function : Project → Z → M (option string))
    (decision_function : list PackageVersion → RandomState → bool * RandomState)
    (count : option Z) (dry_run : bool) : M retval :=
  let! r := _do_dependency_monkey project output_function decision_function
                                  count dry_run in
  ret (RetResult r).

Definition dependency_monkey (globals : list string) (project : Project)
    (output : string) (seed : option Z) (decision : option string)
    (dry_run : bool) (context : option string) (count : option Z) : M retval :=
  match lookup_decision decision with
  | None =>
      raise (ValueError ("Decision function " +:+ default "None" decision
                           +:+ " is not known"))
  | Some decision_function =>
      random_seed_call seed ;;!
      if match count with Some c => c <=? 0 | None => false end
      then log (LogError "Number of stacks has to be a positive integer" []) ;;!
           ret (RetInt 3)
      else if String.prefix "https://" output || String.prefix "http://" output
      then
        match context with
        | Some (String c0 c') =>
            let! parsed :=
              try_except
                (load_global globals "json" ;;!
                 let! v := (λ w, (json_loads (String c0 c'), w)) in
                 ret (Some v))
                (λ exc,
                 log (LogError "Failed to load Amun context that should be passed with generated stacks: %s" []) ;;!
                 ret None) in
            match parsed with
            | None => ret (RetInt 1)
            | Some context =>
                run_monkey project
                  (_dm_amun_inspect_wrapper globals output context)
                  decision_function count dry_run
            end
        | _ =>
            log (LogWarning "Context to Amun API is empty") ;;!
            run_monkey project
              (_dm_amun_inspect_wrapper globals output (JDict []))
              decision_function count dry_run
        end
      else if String.eqb output "-"
      then run_monkey project (_dm_stdout_output globals)
                      decision_function count dry_run
      else
        match context with
        | Some (String _ _) =>
            log (LogError "Unable to use context when writing generated projects onto filesystem" []) ;;!
            ret (RetInt 2)
        | _ =>
            let! isdir := os_path_isdir output in
            (if isdir then ret tt else os_makedirs output) ;;!
            run_monkey project (_dm_amun_directory_output output)
                       decision_function count dry_run
        end
  end.

End DependencyMonkey.

Notation "'let!' x ':=' m 'in' k" := (bind m (λ x, k))
  (at level 10, x binder, m at level 100, k at level 200).
Notation "m ';;!' k" := (bind m (λ _, k))
  (at level 100, k at level 200, right associativity).

(** The names the module binds: its imports (lines 21 to 29), its logger
    and its own functions.  [json], [sys] and [amun_inspect] are used by the
    sinks and by [dependency_monkey] but are bound nowhere in the module. *)
Definition module_globals : list string :=
  ["random"; "os"; "partial"; "typing"; "logging";
   "Project"; "DECISISON_FUNCTIONS"; "DependencyGraph"; "_LOGGER";
   "_dm_amun_inspect_wrapper"; "_dm_amun_directory_output";
   "_dm_stdout_output"; "_fill_package_digests"; "_do_dependency_monkey";
   "dependency_monkey"]%string.

(** ** Vocabulary of the properties *)

(** The hash strings a lookup contributes: [sha256:] and the digest, entry
    after entry, as far as the entries carry a [sha256] digest. *)
Fixpoint sha256_hashes (entries : list (gmap string string)) : list string :=
  match entries with
  | [] => []
  | entry :: entries' =>
      match entry !! "sha256" with
      | Some digest => ("sha256:" +:+ digest) :: sha256_hashes entries'
      | None => []
      end
  end.

(** What a sequence of index lookups contributes to the object [i]. *)
Fixpoint appended (evs : list event) (i : nat) : list string :=
  match evs with
  | [] => []
  | EvGetPackageHashes _ pv (Ok entries) :: evs' =>
      (if decide (pv_id pv = i) then sha256_hashes entries else [])
        ++ appended evs' i
  | _ :: evs' => appended evs' i
  end.

(** The parts of the world that digest filling leaves alone. *)
Definition same_outside_hashes `{E : Externals} (w w' : World) : Prop :=
  w_random w' = w_random w ∧ w_entropy w' = w_entropy w ∧
  w_stdout w' = w_stdout w ∧ w_fs w' = w_fs w ∧ w_log w' = w_log w.

(** Every lookup in [evs] went to the index at [url], for an object without
    hashes in [hs], and carries the answer of the index at that moment of
    the history [t]. *)
Fixpoint lookups `{E : Externals} (url : string) (hs : gmap nat (list string))
    (t evs : list event) : Prop :=
  match evs with
  | [] => True
  | ev :: evs' =>
      (∃ pv, ev = EvGetPackageHashes url pv
                    (index_get_package_hashes t url (name pv) (locked_version pv))
             ∧ hashes_of hs (pv_id pv) = [])
      ∧ lookups url hs (t ++ [ev]) evs'
  end.

(** [list(walk(decision_function))]: the projects of a walk followed to its
    end, the generator of [random] starting in state [r]. *)
Fixpoint drain `{E : Externals} (gen : Generator)
    (decision_function : list PackageVersion → RandomState → bool * RandomState)
    (r : RandomState) : list Project :=
  match gen with
  | GStop => []
  | GYield p rest => p :: drain rest decision_function r
  | GAsk partial k =>
      let '(b, r') := decision_function partial r in
      drain (k b) decision_function r'
  end.

(** The generator that is left alone once it has handed over [n] projects. *)
Fixpoint truncate (gen : Generator) (n : nat) {struct gen} : Generator :=
  match n with
  | O => GStop
  | S n' =>
      match gen with
      | GStop => GStop
      | GYield p rest => GYield p (truncate rest n')
      | GAsk partial k => GAsk partial (λ b, truncate (k b) n)
      end
  end.

(** The destinations [dependency_monkey] tells apart, and the output
    function it builds for each. *)
Inductive sink :=
| AmunSink (output : string) (context : json)
| StdoutSink
| DirectorySink (output : string).

Definition sink_function `{E : Externals} (globals : list string) (s : sink)
  : Project → Z → M (option string) :=
  match s with
  | AmunSink output context => _dm_amun_inspect_wrapper globals output context
  | StdoutSink => _dm_stdout_output globals
  | DirectorySink output => _dm_amun_directory_output output
  end.

(** The value of a string of decimal digits. *)
Definition digit_value (c : ascii) : Z := Z.of_nat (nat_of_ascii c) - 48.

Fixpoint decimal_value_from (acc : Z) (s : string) : Z :=
  match s with
  | EmptyString => acc
  | String c s' => decimal_value_from (10 * acc + digit_value c) s'
  end.

Definition decimal_value (s : string) : Z := decimal_value_from 0 s.

Fixpoint digits_only (s : string) : bool :=
  match s with
  | EmptyString => true
  | String c s' =>
      (Nat.leb 48 (nat_of_ascii c) && Nat.leb (nat_of_ascii c) 57) && digits_only s'
  end.

(** What a run of lookups at the index [url] does to the world: [evs] are
    the lookups made, [r] is how the run ended. *)
Definition fill_effect `{E : Externals} (url : string) (w : World)
    (r : outcome unit) (w' : World) (evs : list event) : Prop :=
  same_outside_hashes w w' ∧
  w_trace w' = w_trace w ++ evs ∧
  lookups url (w_hashes w) (w_trace w) evs ∧
  (∀ i, hashes_of (w_hashes w') i = hashes_of (w_hashes w) i ++ appended evs i) ∧
  (∀ u pv e, EvGetPackageHashes u pv (Raise e) ∈ evs →
             r = Raise e ∧ hashes_of (w_hashes w') (pv_id pv) = []).

(** A computation whose every run relates the world before to the world
    after by [P]. *)
Definition preserves `{E : Externals} {A} (P : World → World → Prop)
    (m : M A) : Prop :=
  ∀ w r w', m w = (r, w') → P w w'.

(** The generator of [random] is in the same state. *)
Definition same_random `{E : Externals} (w w' : World) : Prop :=
  w_random w' = w_random w.



(** What [os.path.join] puts between [a] and a relative second part. *)
Definition separator (a : string) : string :=
  match string_last a with
  | None => EmptyString
  | Some c => if Ascii.eqb c "/" then EmptyString else "/"
  end.

(** The packages a sequence of external calls looked up, in order. *)
Definition looked_up (evs : list event) : list PackageVersion :=
  omap (λ ev, match ev with
              | EvGetPackageHashes _ pv _ => Some pv
              | _ => None
              end) evs.

(** Nothing is deleted from the file system: a directory is still a
    directory, a file is still a file, whatever it holds now. *)
Definition fs_kept `{E : Externals} (w w' : World) : Prop :=
  ∀ p, match w_fs w !! p with
       | Some Dir => w_fs w' !! p = Some Dir
       | Some (File _) => ∃ content, w_fs w' !! p = Some (File content)
       | None => True
       end.

(** The world has only been added to: the trace of external calls, the
    logger, standard output and every list of hashes start with what they
    were. *)
Definition history_grows `{E : Externals} (w w' : World) : Prop :=
  w_trace w `prefix_of` w_trace w' ∧
  w_log w `prefix_of` w_log w' ∧
  w_stdout w `prefix_of` w_stdout w' ∧
  ∀ i, hashes_of (w_hashes w) i `prefix_of` hashes_of (w_hashes w') i.

(** [context['python']] of the keyword arguments sent to Amun *)
Definition dict_get (d : list (string * json)) (key : string) : option json :=
  snd <$> find (λ kv, String.eqb (fst kv) key) d.





(** ** [SetScoreStep], the debugging step of [steps/_debug/set_score.py]

    The score is a [float]; nothing is computed with it, so it is kept
    abstract, and [random.uniform(-1.0, 1.0)] is a draw from the generator
    of [random].  [Unit.pre_run], which the step calls last, is not part of
    the file and is taken as it comes. *)
Module SetScoreStep.
Section Step.
Context `{E : Externals}.
Variable Score : Type.
Variable State : Type.
Variable random_uniform : RandomState → Score * RandomState.

(** [self.configuration], with the keys of [CONFIGURATION_SCHEMA] *)
Record Configuration := {
  package_name : option string;
  package_version : option string;
  index_url : option string;
  score : option Score;
}.

Variable unit_pre_run :
  Configuration → RandomState → Configuration * RandomState.

Definition CONFIGURATION_DEFAULT : Configuration :=
  {| package_name := None; package_version := None; index_url := None;
     score := None |}.

(** What [run] reads of the package it is given: [locked_version] and
    [index.url]. *)
Record Candidate := {
  candidate : PackageVersion;
  index : string;
}.

(** [should_include]: register self, never. *)
Definition should_include {BuilderContext : Type} (builder_context : BuilderContext)
  : option Configuration := None.

(** [pre_run] *)
Definition pre_run (configuration : Configuration) (r : RandomState)
  : Configuration * RandomState :=
  let '(configuration, r) :=
    match score configuration with
    | None =>
        let '(x, r') := random_uniform r in
        ({| package_name := package_name configuration;
            package_version := package_version configuration;
            index_url := index_url configuration;
            score := Some x |}, r')
    | Some _ => (configuration, r)
    end in
  unit_pre_run configuration r.

(** [run]: [None] turns the package down, otherwise the score and no
    justification. *)
Definition run (configuration : Configuration) (_ : State)
    (package_version_ : Candidate)
  : option (option Score * option (list (gmap string string))) :=
  if match package_version configuration with
     | Some v => negb (String.eqb (locked_version (candidate package_version_)) v)
     | None => false
     end
     || match index_url configuration with
        | Some u => negb (String.eqb (index package_version_) u)
        | None => false
        end
  then None
  else Some (score configuration, None).

End Step.
End SetScoreStep.

(** ** A concrete environment

    One package index, a graph database that knows three versions of every
    package, an Amun deployment, and the two decision functions. *)
Module Scenario.

Definition entry_of (digest : string) : gmap string string :=
  {[ "sha256" := digest ]}.

(** The index knows one artifact per release; it has nothing for the
    package [ghost] and cannot be reached for the package [broken]. *)
Definition index (t : list event) (url name version : string)
  : outcome (list (gmap string string)) :=
  if String.eqb name "broken" then Raise (ExternalError "index unreachable")
  else if String.eqb name "ghost" then Ok []
  else Ok [entry_of (name +:+ "-" +:+ version)].

Definition candidates (i : nat) (dep : string * string) : string * list PackageVersion :=
  (fst dep,
   [ {| pv_id := 3 * i; name := fst dep; locked_version := "1.0" |};
     {| pv_id := 3 * i + 1; name := fst dep; locked_version := "1.1" |};
     {| pv_id := 3 * i + 2; name := fst dep; locked_version := "2.0" |} ]).

Definition graph (t : list event) (project : Project) : outcome DependencyGraph :=
  Ok (imap candidates (pipfile project)).

Definition count_inspections (t : list event) : nat :=
  length (List.filter (λ ev, match ev with EvAmunInspect _ _ _ => true | _ => false end) t).

(** Amun numbers the inspections; the deployment at [http://down] refuses
    every request. *)
Definition amun (t : list event) (url : string) (context : list (string * json))
  : outcome (gmap string string) :=
  if String.eqb url "http://down" then Raise (ExternalError "connection refused")
  else Ok {[ "inspection_id" := "inspection-" +:+ decimal (Z.of_nat (S (count_inspections t))) ]}.

Definition lcg (r : Z) : Z := (r * 1103515245 + 12345) mod 2147483648.

(** Modelled from the spec: the registry of decision functions, which is
    not part of this module.  Section 4.5: [all] always continues,
    [sampling] continues with a fixed probability (here one half), drawing
    from the seeded generator. *)
Definition registry : list (string * (list PackageVersion → Z → bool * Z)) :=
  [ ("all", λ _ r, (true, r));
    ("sampling", λ _ r, (lcg r <? 1073741824, lcg r)) ].

Definition dict_of (p : Project) (hs : gmap nat (list string)) : json :=
  JDict [ ("default",
           JList (map (λ pv, JDict [ ("name", JStr (name pv));
                                     ("version", JStr (locked_version pv));
                                     ("hashes", JList (map JStr (hashes_of hs (pv_id pv)))) ])
                      (packages (pipfile_lock p)))) ].

Definition manifest (p : Project) : string :=
  foldr (λ dep acc, fst dep +:+ "==" +:+ snd dep +:+ ";" +:+ acc) "" (pipfile p).

Definition lock (p : Project) (hs : gmap nat (list string)) : string :=
  foldr (λ pv acc, name pv +:+ "==" +:+ locked_version pv +:+ "#"
                     +:+ foldr (λ h a, h +:+ "," +:+ a) "" (hashes_of hs (pv_id pv))
                     +:+ ";" +:+ acc)
        "" (packages (pipfile_lock p)).

Definition loads (s : string) : outcome json :=
  if String.eqb s "{}" then Ok (JDict []) else Raise (ValueError "JSONDecodeError").

#[export] Instance externals : Externals := {|
  RandomState := Z;
  random_seed := λ z, z;
  DECISISON_FUNCTIONS := registry;
  config_warehouses := ["https://pypi.org/simple"; "https://mirror.example/simple"];
  index_get_package_hashes := index;
  graph_from_project := graph;
  amun_service := amun;
  project_to_dict := dict_of;
  pipfile_text := manifest;
  pipfile_lock_text := lock;
  json_loads := loads;
  json_dumps_sorted_indent2 := λ j, "<json>";
|}.

Definition empty_world : World :=
  {| w_hashes := ∅; w_random := 0; w_entropy := 0; w_trace := [];
     w_stdout := []; w_fs := ∅; w_log := [] |}.

(** One direct dependency. *)
Definition one_dependency : Project :=
  {| pipfile := [("flask", "*")];
     pipfile_lock := {| packages := []; dev_packages := [] |} |}.

(** Two direct dependencies, the second one unknown to the index. *)
Definition broken_dependency : Project :=
  {| pipfile := [("flask", "*"); ("broken", "*")];
     pipfile_lock := {| packages := []; dev_packages := [] |} |}.

Definition flask : PackageVersion :=
  {| pv_id := 0; name := "flask"; locked_version := "1.0" |}.

Definition broken : PackageVersion :=
  {| pv_id := 3; name := "broken"; locked_version := "1.0" |}.

(** A generated stack: [flask] at runtime, [ghost] and again [flask] for
    development. *)
Definition stack : Project :=
  {| pipfile := [("flask", "*")];
     pipfile_lock :=
       {| packages := [flask];
          dev_packages := [ {| pv_id := 7; name := "ghost"; locked_version := "0.1" |};
                            flask ] |} |}.

(** The first stack of [broken_dependency]. *)
Definition broken_stack : Project :=
  {| pipfile := [("flask", "1.0"); ("broken", "1.0")];
     pipfile_lock := {| packages := [flask; broken]; dev_packages := [] |} |}.

(** The same environment with other warehouses and another index. *)
Definition variant (warehouses : list string)
    (idx : list event → string → string → string
           → outcome (list (gmap string string))) : Externals := {|
  RandomState := Z;
  random_seed := λ z, z;
  DECISISON_FUNCTIONS := registry;
  config_warehouses := warehouses;
  index_get_package_hashes := idx;
  graph_from_project := graph;
  amun_service := amun;
  project_to_dict := dict_of;
  pipfile_text := manifest;
  pipfile_lock_text := lock;
  json_loads := loads;
  json_dumps_sorted_indent2 := λ j, "<json>";
|}.

(** No warehouse is configured. *)
Definition unconfigured : Externals := variant [] index.

(** An index whose second entry carries an [md5] digest only. *)
Definition mixed_index (t : list event) (url name version : string)
  : outcome (list (gmap string string)) :=
  Ok [entry_of "0a"; {[ "md5" := "0b" ]}; entry_of "0c"].

Definition mixed : Externals := variant ["https://pypi.org/simple"] mixed_index.

(** The empty world of an environment. *)
Definition blank (E : Externals) (r : RandomState) : World :=
  {| w_hashes := ∅; w_random := r; w_entropy := 0; w_trace := [];
     w_stdout := []; w_fs := ∅; w_log := [] |}.

End Scenario.


(** * Properties *)

Section Properties.
Context `{E : Externals}.

Lemma hashes_of_insert (hs : gmap nat (list string)) (i j : nat) (l : list string) :
  hashes_of (<[i := l]> hs) j = if decide (i = j) then l else hashes_of hs j.
Proof.
  unfold hashes_of. rewrite lookup_insert. by destruct (decide (i = j)).
Qed.

Lemma same_outside_hashes_refl (w : World) : same_outside_hashes w w.
Proof. by repeat split. Qed.

Lemma same_outside_hashes_trans (w1 w2 w3 : World) :
  same_outside_hashes w1 w2 → same_outside_hashes w2 w3 →
  same_outside_hashes w1 w3.
Proof.
  unfold same_outside_hashes. intros (?&?&?&?&?) (?&?&?&?&?).
  repeat split; congruence.
Qed.

(** The inner loop of [_fill_package_digests]: the digests of the entries
    are appended to the object, nothing else moves. *)
Lemma for_each_entry_spec (pv : PackageVersion) (entries : list (gmap string string)) :
  ∀ (w : World) r w',
    for_each entries
      (λ entry, let! digest := getitem entry "sha256" in
                hashes_append pv ("sha256:" +:+ digest)) w = (r, w') →
    same_outside_hashes w w' ∧ w_trace w' = w_trace w ∧
    (∀ i, hashes_of (w_hashes w') i
          = hashes_of (w_hashes w) i
              ++ (if decide (pv_id pv = i) then sha256_hashes entries else [])) ∧
    (r = Ok tt ∨ r = Raise (KeyError "sha256")).
Proof.
  induction entries as [|entry entries IH]; intros w r w' Hrun.
  - cbn in Hrun. injection Hrun as <- <-.
    split; [apply same_outside_hashes_refl|]. split; [done|]. split; [|by left].
    intros i. destruct (decide _); by rewrite app_nil_r.
  - cbn [for_each] in Hrun. unfold bind at 1 2 in Hrun.
    unfold getitem in Hrun. cbn [sha256_hashes].
    destruct (entry !! "sha256") as [digest|] eqn:Hd.
    + cbn in Hrun. apply IH in Hrun as (Hsame & Htr & Hh & Hr).
      split; [|split; [|split]]; try done.
      intros i. rewrite Hh. cbn. rewrite hashes_of_insert.
      destruct (decide (pv_id pv = i)) as [->|]; [|done].
      by rewrite <- app_assoc.
    + cbn in Hrun. injection Hrun as <- <-.
      split; [apply same_outside_hashes_refl|]. split; [done|]. split; [|by right].
      intros i. destruct (decide _); by rewrite app_nil_r.
Qed.

(** *** Digest filling *)

Lemma appended_app (evs1 evs2 : list event) (i : nat) :
  appended (evs1 ++ evs2) i = appended evs1 i ++ appended evs2 i.
Proof.
  induction evs1 as [|ev evs1 IH]; [done|].
  destruct ev as [| ? ? [entries|] |]; cbn; rewrite IH; [done| |done..].
  by rewrite app_assoc.
Qed.

Lemma lookups_app (url : string) (hs : gmap nat (list string))
    (evs1 evs2 t : list event) :
  lookups url hs t (evs1 ++ evs2)
  ↔ lookups url hs t evs1 ∧ lookups url hs (t ++ evs1) evs2.
Proof.
  revert t. induction evs1 as [|ev evs1 IH]; intros t; cbn.
  - rewrite app_nil_r. tauto.
  - rewrite IH, <- app_assoc. cbn. tauto.
Qed.

Lemma lookups_weaken (url : string) (hs hs' : gmap nat (list string))
    (evs t : list event) :
  (∀ i, hashes_of hs' i = [] → hashes_of hs i = []) →
  lookups url hs' t evs → lookups url hs t evs.
Proof.
  intros Hhs. revert t. induction evs as [|ev evs IH]; intros t; cbn; [done|].
  intros [(pv & -> & Hpv) Hrest]. split; [|by apply IH].
  exists pv. split; [done|]. by apply Hhs.
Qed.

Lemma fill_effect_skip (url : string) (w : World) :
  fill_effect url w (Ok tt) w [].
Proof.
  split; [apply same_outside_hashes_refl|].
  split; [by rewrite app_nil_r|]. split; [done|].
  split; [intros i; by rewrite app_nil_r|].
  intros u pv e Hin. by apply elem_of_nil in Hin.
Qed.

Lemma fill_effect_compose (url : string) (w w1 w2 : World) (r : outcome unit)
    (evs1 evs2 : list event) :
  fill_effect url w (Ok tt) w1 evs1 → fill_effect url w1 r w2 evs2 →
  fill_effect url w r w2 (evs1 ++ evs2).
Proof.
  intros (Hs1 & Ht1 & Hl1 & Hh1 & Hr1) (Hs2 & Ht2 & Hl2 & Hh2 & Hr2).
  split; [by eapply same_outside_hashes_trans|].
  split; [by rewrite Ht2, Ht1, app_assoc|].
  split.
  { apply lookups_app. split; [done|]. rewrite <- Ht1.
    eapply lookups_weaken; [|done]. intros i. rewrite Hh1.
    intros Hnil. by apply app_eq_nil in Hnil as [? ?]. }
  split.
  { intros i. by rewrite Hh2, Hh1, appended_app, app_assoc. }
  intros u pv e [Hin|Hin]%elem_of_app; [|by apply Hr2 in Hin].
  by apply Hr1 in Hin as [? ?].
Qed.

(** One package of the lock: an object with hashes is passed over, for an
    object without there is exactly one lookup. *)
Lemma fill_package_version_spec (url : string) (pv : PackageVersion)
    (w : World) r w' :
  fill_package_version url pv w = (r, w') →
  ∃ evs, fill_effect url w r w' evs ∧
         (hashes_of (w_hashes w) (pv_id pv) ≠ [] → evs = [] ∧ r = Ok tt) ∧
         (hashes_of (w_hashes w) (pv_id pv) = [] →
          ∃ resp, evs = [EvGetPackageHashes url pv resp]).
Proof.
  unfold fill_package_version, bind at 1, get_hashes.
  destruct (hashes_of (w_hashes w) (pv_id pv)) as [|h hs] eqn:Hhs.
  - unfold bind, get_package_hashes, external. cbn -[for_each].
    set (resp := index_get_package_hashes (w_trace w) url (name pv) (locked_version pv)).
    set (ev := EvGetPackageHashes url pv resp).
    assert (Hlook : lookups url (w_hashes w) (w_trace w) [ev]).
    { split; [|done]. by exists pv. }
    destruct resp as [entries|e] eqn:Hresp.
    + destruct (for_each entries _ _) as [r1 w2] eqn:Hloop.
      apply for_each_entry_spec in Hloop as (Hsame & Htr & Hh & Hr).
      intros Hrun. exists [ev]. split; [|split; [done|by eauto]].
      assert (r = r1 ∧ w' = w2) as [-> ->].
      { destruct r1 as [[]|]; by injection Hrun as <- <-. }
      split; [exact Hsame|]. split; [by rewrite Htr|]. split; [done|].
      split.
      { intros i. rewrite Hh. cbn. by rewrite app_nil_r. }
      intros u pv' e [Heq|Hin]%elem_of_cons; [by subst ev|by apply elem_of_nil in Hin].
    + intros Hrun. injection Hrun as <- <-. exists [ev].
      split; [|split; [done|by eauto]].
      split; [by repeat split|]. split; [done|]. split; [done|].
      split; [intros i; cbn; by rewrite app_nil_r|].
      intros u pv' e' [Heq|Hin]%elem_of_cons; [|by apply elem_of_nil in Hin].
      subst ev. injection Heq as -> -> ->. by cbn.
  - cbn. intros Hrun. injection Hrun as <- <-. exists [].
    split; [apply fill_effect_skip|]. split; [done|]. by intros.
Qed.

(** The loop over the locked packages. *)
Lemma for_each_fill_spec (url : string) (l : list PackageVersion) :
  ∀ (w : World) r w',
    for_each l (fill_package_version url) w = (r, w') →
    ∃ evs, fill_effect url w r w' evs ∧
           (∀ u pv resp, EvGetPackageHashes u pv resp ∈ evs → pv ∈ l).
Proof.
  induction l as [|pv l IH]; intros w r w' Hrun.
  - cbn in Hrun. injection Hrun as <- <-. exists [].
    split; [apply fill_effect_skip|]. intros u pv resp Hin.
    by apply elem_of_nil in Hin.
  - cbn [for_each] in Hrun. unfold bind at 1 in Hrun.
    destruct (fill_package_version url pv w) as [r1 w1] eqn:Hone.
    apply fill_package_version_spec in Hone as (evs1 & Heff1 & Hfilled & Hempty).
    assert (Hfrom : ∀ u pv' resp, EvGetPackageHashes u pv' resp ∈ evs1 → pv' = pv).
    { intros u pv' resp Hin.
      destruct (hashes_of (w_hashes w) (pv_id pv)) as [|h hs] eqn:Hhs.
      - destruct Hempty as [resp' ->]; [done|].
        apply elem_of_cons in Hin as [Heq|Hin]; [by injection Heq|].
        by apply elem_of_nil in Hin.
      - destruct Hfilled as [-> _]; [done|]. by apply elem_of_nil in Hin. }
    destruct r1 as [[]|e].
    + apply IH in Hrun as (evs2 & Heff2 & Hin2). exists (evs1 ++ evs2).
      split; [by eapply fill_effect_compose|].
      intros u pv' resp [Hin|Hin]%elem_of_app.
      * apply Hfrom in Hin as ->. by left.
      * right. by eapply Hin2.
    + injection Hrun as <- <-. exists evs1. split; [done|].
      intros u pv' resp Hin. apply Hfrom in Hin as ->. by left.
Qed.

(** [_fill_package_digests]: every lookup goes to the first warehouse. *)
Lemma fill_package_digests_spec (p : Project) (w : World) r w' :
  _fill_package_digests p w = (r, w') →
  ∃ evs ru,
    fill_effect (default EmptyString (head config_warehouses)) w ru w' evs ∧
    (∀ u pv resp, EvGetPackageHashes u pv resp ∈ evs →
       pv ∈ packages (pipfile_lock p) ++ dev_packages (pipfile_lock p)) ∧
    (config_warehouses = [] → evs = []) ∧
    match ru with
    | Ok _ => r = Ok p ∨ (config_warehouses = [] ∧ ∃ msg, r = Raise (IndexError msg))
    | Raise e => r = Raise e
    end.
Proof.
  unfold _fill_package_digests, bind at 1.
  destruct config_warehouses as [|url urls] eqn:Hcfg.
  - cbn. intros Hrun. injection Hrun as <- <-. exists [], (Ok tt).
    split; [apply fill_effect_skip|]. split.
    { intros u pv resp Hin. by apply elem_of_nil in Hin. }
    split; [done|]. right. eauto.
  - cbn -[for_each]. unfold bind.
    destruct (for_each _ _ w) as [r1 w1] eqn:Hloop.
    apply for_each_fill_spec in Hloop as (evs & Heff & Hin).
    intros Hrun. exists evs, r1. split; [|split; [done|split; [done|]]].
    + destruct r1 as [[]|e]; cbn in Hrun; by injection Hrun as <- <-.
    + destruct r1 as [[]|e]; cbn in Hrun; injection Hrun as <- <-; [by left|done].
Qed.

(** *** Computations that leave a part of the world alone *)

Section Preserves.
Variable P : World → World → Prop.
Hypothesis P_refl : ∀ w, P w w.
Hypothesis P_trans : ∀ w1 w2 w3, P w1 w2 → P w2 w3 → P w1 w3.

Lemma preserves_ret {A} (a : A) : preserves P (ret a).
Proof. intros w r w' Hrun. injection Hrun as <- <-. apply P_refl. Qed.

Lemma preserves_raise {A} (e : exn) : preserves P (raise (A := A) e).
Proof. intros w r w' Hrun. injection Hrun as <- <-. apply P_refl. Qed.

Lemma preserves_bind {A B} (m : M A) (k : A → M B) :
  preserves P m → (∀ a, preserves P (k a)) → preserves P (bind m k).
Proof.
  intros Hm Hk w r w' Hrun. unfold bind in Hrun.
  destruct (m w) as [[a|e] w1] eqn:Hmw.
  - eapply P_trans; [by eapply Hm|by eapply Hk].
  - injection Hrun as <- <-. by eapply Hm.
Qed.

Lemma preserves_try_except {A} (m : M A) (h : exn → M A) :
  preserves P m → (∀ e, preserves P (h e)) → preserves P (try_except m h).
Proof.
  intros Hm Hh w r w' Hrun. unfold try_except in Hrun.
  destruct (m w) as [[a|e] w1] eqn:Hmw.
  - injection Hrun as <- <-. by eapply Hm.
  - eapply P_trans; [by eapply Hm|by eapply Hh].
Qed.

Lemma preserves_for_each {A} (l : list A) (body : A → M unit) :
  (∀ x, preserves P (body x)) → preserves P (for_each l body).
Proof.
  intros Hbody. induction l as [|x l IH]; cbn [for_each].
  - apply preserves_ret.
  - apply preserves_bind; [apply Hbody|by intros _].
Qed.

Lemma preserves_load_global (globals : list string) (n : string) :
  preserves P (load_global globals n).
Proof.
  unfold load_global. destruct (bool_decide _);
    [apply preserves_ret|apply preserves_raise].
Qed.

Lemma preserves_getitem (d : gmap string string) (key : string) :
  preserves P (getitem d key).
Proof.
  unfold getitem. destruct (d !! key); [apply preserves_ret|apply preserves_raise].
Qed.

Lemma preserves_setitem (context : json) (key : string) (v : json) :
  preserves P (setitem context key v).
Proof.
  destruct context; cbn; first [apply preserves_ret|apply preserves_raise].
Qed.

Lemma preserves_to_dict (p : Project) : preserves P (to_dict p).
Proof. intros w r w' Hrun. injection Hrun as <- <-. apply P_refl. Qed.

End Preserves.

(** Pointwise equal computations behind a [bind]. *)
Lemma bind_ext {A B} (m1 m2 : M A) (k1 k2 : A → M B) (w : World) :
  m1 w = m2 w → (∀ a w1, k1 a w1 = k2 a w1) → bind m1 k1 w = bind m2 k2 w.
Proof.
  intros Hm Hk. unfold bind. rewrite Hm. destruct (m2 w) as [[a|e] w1]; [apply Hk|done].
Qed.

(** *** The sinks do not touch the generator of [random] *)

Lemma same_random_refl (w : World) : same_random w w.
Proof. done. Qed.

Lemma same_random_trans (w1 w2 w3 : World) :
  same_random w1 w2 → same_random w2 w3 → same_random w1 w3.
Proof. unfold same_random. congruence. Qed.

Lemma same_random_log (rec : log_record) : preserves same_random (log rec).
Proof. intros w r w' Hrun. by injection Hrun as <- <-. Qed.

Lemma same_random_external {A} (ev : outcome A → event)
    (resp : list event → outcome A) : preserves same_random (external ev resp).
Proof. intros w r w' Hrun. by injection Hrun as <- <-. Qed.

Lemma same_random_makedirs (path : string) : preserves same_random (os_makedirs path).
Proof.
  intros w r w' Hrun. unfold os_makedirs in Hrun.
  destruct (String.eqb _ _); [by injection Hrun as <- <-|].
  destruct (existsb _ _); by injection Hrun as <- <-.
Qed.

Lemma same_random_write_file (path content : string) :
  preserves same_random (write_file path content).
Proof.
  intros w r w' Hrun. unfold write_file in Hrun.
  destruct (w_fs w !! path) as [[|?]|]; by injection Hrun as <- <-.
Qed.

Lemma same_random_write_stdout (text : string) :
  preserves same_random (write_stdout text).
Proof. intros w r w' Hrun. by injection Hrun as <- <-. Qed.

Lemma same_random_fill (p : Project) :
  preserves same_random (_fill_package_digests p).
Proof.
  intros w r w' Hrun.
  apply fill_package_digests_spec in Hrun as (evs & ru & Heff & _).
  by destruct Heff as ((? & _) & _).
Qed.

Ltac frame_random :=
  repeat first
    [ exact same_random_refl
    | exact same_random_trans
    | apply same_random_log
    | apply same_random_external
    | apply same_random_makedirs
    | apply same_random_write_file
    | apply same_random_write_stdout
    | apply preserves_ret
    | apply preserves_raise
    | apply preserves_load_global
    | apply preserves_getitem
    | apply preserves_setitem
    | apply preserves_to_dict
    | apply preserves_bind
    | apply preserves_try_except
    | match goal with |- ∀ _, _ => intros ? end ].

Lemma same_random_sink (globals : list string) (s : sink) (p : Project) (count : Z) :
  preserves same_random (sink_function globals s p count).
Proof.
  destruct s as [out context| |out]; cbn [sink_function].
  - unfold _dm_amun_inspect_wrapper. frame_random.
  - unfold _dm_stdout_output. frame_random.
  - unfold _dm_amun_directory_output, to_files. frame_random.
    intros w r w' Hrun. by injection Hrun as <- <-.
Qed.

(** *** The loop of [_do_dependency_monkey] *)

Lemma truncate_0 (gen : Generator) : truncate gen 0 = GStop.
Proof. by destruct gen. Qed.

(** A bound on the count cuts the walk: what follows the last counted
    project is never asked for. *)
Lemma dm_loop_truncate (output_function : Project → Z → M (option string))
    (decision_function : list PackageVersion → RandomState → bool * RandomState)
    (N : Z) (dry_run : bool) (gen : Generator) :
  ∀ (computed : Z) (out : list string) (w : World),
    computed < N →
    dm_loop gen output_function decision_function (Some N) dry_run computed out w
    = dm_loop (truncate gen (Z.to_nat (N - computed))) output_function
              decision_function None dry_run computed out w.
Proof.
  induction gen as [|p rest IH|partial k IH]; intros computed out w Hlt;
    destruct (Z.to_nat (N - computed)) as [|n] eqn:Hn; try lia.
  - done.
  - cbn [truncate dm_loop]. apply bind_ext; [done|]. intros gp w1.
    apply bind_ext; [done|]. intros out1 w2.
    destruct (Z.leb_spec N (computed + 1)) as [Hle|Hgt].
    + replace n with 0%nat by lia. by rewrite truncate_0.
    + rewrite IH by lia. by replace (Z.to_nat (N - (computed + 1))) with n by lia.
  - cbn [truncate dm_loop]. apply bind_ext; [done|]. intros b w1.
    rewrite IH by lia. by rewrite Hn.
Qed.

Lemma drain_truncate
    (decision_function : list PackageVersion → RandomState → bool * RandomState)
    (gen : Generator) :
  ∀ (n : nat) (r : RandomState),
    drain (truncate gen n) decision_function r
    = take n (drain gen decision_function r).
Proof.
  induction gen as [|p rest IH|partial k IH]; intros [|n] r; cbn; try done.
  - by rewrite IH.
  - destruct (decision_function partial r) as [b r']. apply (IH b (S n)).
Qed.

(** The count reported: one for every project the walk hands over, up to
    the bound. *)
Lemma dm_loop_computed (output_function : Project → Z → M (option string))
    (decision_function : list PackageVersion → RandomState → bool * RandomState)
    (count : option Z) (dry_run : bool) (gen : Generator) :
  (∀ p c, preserves same_random (output_function p c)) →
  ∀ (computed0 : Z) (out : list string) (w : World) res w',
    match count with Some N => computed0 < N | None => True end →
    dm_loop gen output_function decision_function count dry_run computed0 out w
    = (Ok res, w') →
    computed res
    = let total :=
        computed0 + Z.of_nat (length (drain gen decision_function (w_random w))) in
      match count with Some N => Z.min N total | None => total end.
Proof.
  intros Hout.
  induction gen as [|p rest IH|partial k IH]; intros computed0 out w res w' Hlt Hrun.
  - cbn in Hrun. injection Hrun as <- <-. cbn. destruct count; lia.
  - cbn [dm_loop] in Hrun. unfold bind at 1 in Hrun.
    destruct (_fill_package_digests p w) as [[gp|e] w1] eqn:Hfill; [|done].
    apply same_random_fill in Hfill.
    unfold bind at 1 in Hrun.
    set (step := if negb dry_run then _ else _) in Hrun.
    destruct (step w1) as [[out1|e] w2] eqn:Hsink; [|done].
    assert (Hr2 : w_random w2 = w_random w).
    { rewrite <- Hfill. subst step. destruct dry_run; cbn in Hsink.
      - by injection Hsink as <- <-.
      - unfold bind in Hsink.
        destruct (output_function gp (computed0 + 1) w1) as [[entry|e] w3] eqn:Hcall;
          [|done].
        apply Hout in Hcall. cbn in Hsink. by injection Hsink as <- <-. }
    cbn [drain length]. destruct count as [N|].
    + destruct (Z.leb_spec N (computed0 + 1)) as [Hle|Hgt].
      * injection Hrun as <- <-. cbn. lia.
      * apply IH in Hrun; [|lia]. rewrite Hrun, Hr2. cbn. lia.
    + apply IH in Hrun; [|done]. rewrite Hrun, Hr2. cbn. lia.
  - cbn [dm_loop] in Hrun. unfold bind at 1, decide_on in Hrun. cbn [drain].
    destruct (decision_function partial (w_random w)) as [b r'].
    apply IH in Hrun; [|done]. by rewrite Hrun.
Qed.









End Properties.

(** ** Decimal names and paths *)

Lemma string_app_nil (b : string) : EmptyString +:+ b = b.
Proof. done. Qed.

Lemma string_app_cons (c : ascii) (a b : string) :
  String c a +:+ b = String c (a +:+ b).
Proof. done. Qed.

Lemma string_length_app (a b : string) :
  String.length (a +:+ b) = (String.length a + String.length b)%nat.
Proof.
  induction a as [|c a IH]; [done|].
  rewrite string_app_cons. cbn [String.length]. by rewrite IH.
Qed.

Lemma string_app_inj_l (a x y : string) : a +:+ x = a +:+ y → x = y.
Proof.
  induction a as [|c a IH]; [done|]. rewrite !string_app_cons.
  intros Heq. injection Heq as Heq. auto.
Qed.

Lemma string_app_assoc (a b c : string) : (a +:+ b) +:+ c = a +:+ (b +:+ c).
Proof.
  induction a as [|x a IH]; [done|]. by rewrite !string_app_cons, IH.
Qed.

Lemma digit_value_digit (d : Z) : 0 ≤ d ≤ 9 → digit_value (digit d) = d.
Proof.
  intros Hd. unfold digit_value, digit. rewrite nat_ascii_embedding; lia.
Qed.

Lemma digits_only_digit (d : Z) :
  0 ≤ d ≤ 9 → digits_only (String (digit d) EmptyString) = true.
Proof.
  intros Hd. unfold digit. cbn [digits_only]. rewrite nat_ascii_embedding by lia.
  rewrite andb_true_r. apply andb_true_intro.
  split; apply Nat.leb_le; lia.
Qed.

Lemma digits_only_app (a b : string) :
  digits_only (a +:+ b) = digits_only a && digits_only b.
Proof.
  induction a as [|c a IH]; [done|]. rewrite string_app_cons.
  cbn [digits_only]. by rewrite IH, andb_assoc.
Qed.

Lemma decimal_value_from_snoc (s : string) (c : ascii) :
  ∀ acc, decimal_value_from acc (s +:+ String c EmptyString)
         = 10 * decimal_value_from acc s + digit_value c.
Proof.
  induction s as [|x s IH]; intros acc; [done|].
  rewrite string_app_cons. cbn [decimal_value_from]. apply IH.
Qed.

Lemma decimal_aux_value (fuel : nat) :
  ∀ n, 0 ≤ n < 2 ^ Z.of_nat fuel → decimal_value (decimal_aux fuel n) = n.
Proof.
  induction fuel as [|fuel IH]; intros n Hn.
  - cbn in *. lia.
  - cbn [decimal_aux]. destruct (Z.ltb_spec n 10) as [Hlt|Hge].
    + unfold decimal_value. cbn. rewrite digit_value_digit; lia.
    + unfold decimal_value. rewrite decimal_value_from_snoc.
      fold (decimal_value (decimal_aux fuel (n / 10))).
      rewrite Nat2Z.inj_succ, Z.pow_succ_r in Hn by lia.
      rewrite IH.
      * pose proof (Z.mod_pos_bound n 10).
        rewrite digit_value_digit by lia.
        pose proof (Z.div_mod n 10). lia.
      * split; [apply Z.div_pos; lia|].
        apply Z.div_lt_upper_bound; lia.
Qed.

Lemma decimal_aux_digits (fuel : nat) :
  ∀ n, 0 ≤ n → digits_only (decimal_aux fuel n) = true.
Proof.
  induction fuel as [|fuel IH]; intros n Hn; [done|].
  cbn [decimal_aux]. destruct (Z.ltb_spec n 10) as [Hlt|Hge].
  - apply digits_only_digit. lia.
  - rewrite digits_only_app, IH by (apply Z.div_pos; lia).
    apply digits_only_digit. pose proof (Z.mod_pos_bound n 10). lia.
Qed.

Lemma decimal_aux_length_le (fuel : nat) :
  ∀ n (k : nat), 0 ≤ n < 10 ^ Z.of_nat (S k) →
                 (String.length (decimal_aux fuel n) ≤ S k)%nat.
Proof.
  induction fuel as [|fuel IH]; intros n k Hn; [cbn; lia|].
  cbn [decimal_aux]. destruct (Z.ltb_spec n 10) as [Hlt|Hge]; [cbn; lia|].
  rewrite string_length_app. cbn [String.length].
  destruct k as [|k]; [cbn in Hn; lia|].
  rewrite Nat2Z.inj_succ, Z.pow_succ_r in Hn by lia.
  specialize (IH (n / 10) k).
  assert (0 ≤ n / 10 < 10 ^ Z.of_nat (S k)); [|lia].
  split; [apply Z.div_pos; lia|apply Z.div_lt_upper_bound; lia].
Qed.

Lemma decimal_aux_length_ge (fuel : nat) :
  ∀ n (k : nat), 10 ^ Z.of_nat k ≤ n < 2 ^ Z.of_nat fuel →
                 (S k ≤ String.length (decimal_aux fuel n))%nat.
Proof.
  induction fuel as [|fuel IH]; intros n k Hn.
  - assert (0 < 10 ^ Z.of_nat k) by (apply Z.pow_pos_nonneg; lia). cbn in Hn. lia.
  - cbn [decimal_aux]. destruct (Z.ltb_spec n 10) as [Hlt|Hge].
    + destruct k as [|k]; [cbn; lia|].
      rewrite Nat2Z.inj_succ, Z.pow_succ_r in Hn by lia.
      assert (0 < 10 ^ Z.of_nat k) by (apply Z.pow_pos_nonneg; lia). lia.
    + rewrite string_length_app. cbn [String.length].
      destruct k as [|k]; [lia|].
      rewrite !Nat2Z.inj_succ, !Z.pow_succ_r in Hn by lia.
      specialize (IH (n / 10) k).
      assert (10 ^ Z.of_nat k ≤ n / 10 < 2 ^ Z.of_nat fuel); [|lia].
      split; [apply Z.div_le_lower_bound; lia|apply Z.div_lt_upper_bound; lia].
Qed.

Lemma decimal_fuel (n : Z) : 0 ≤ n → 0 ≤ n < 2 ^ Z.of_nat (S (Z.to_nat (Z.log2 n))).
Proof.
  intros Hn. split; [done|].
  rewrite Nat2Z.inj_succ, Z2Nat.id by apply Z.log2_nonneg.
  destruct (decide (n = 0)) as [->|Hne]; [done|].
  apply Z.log2_spec. lia.
Qed.

Lemma decimal_value_decimal (n : Z) : 0 ≤ n → decimal_value (decimal n) = n.
Proof. intros Hn. apply decimal_aux_value, decimal_fuel, Hn. Qed.

Lemma zeros_length (k : nat) : String.length (zeros k) = k.
Proof. induction k as [|k IH]; cbn; [done|by rewrite IH]. Qed.

Lemma zeros_value (k : nat) (s : string) :
  decimal_value (zeros k +:+ s) = decimal_value s.
Proof. induction k as [|k IH]; [done|exact IH]. Qed.

Lemma zeros_digits (k : nat) : digits_only (zeros k) = true.
Proof. induction k as [|k IH]; [done|exact IH]. Qed.

(** The name of the [n]-th stack reads back as [n] and holds digits only;
    it has five characters up to 99999, and is the plain decimal beyond. *)
Lemma format_05d_value (n : Z) : 0 ≤ n → decimal_value (format_05d n) = n.
Proof.
  intros Hn. unfold format_05d. destruct (Z.ltb_spec n 0); [lia|].
  by rewrite zeros_value, decimal_value_decimal.
Qed.

Lemma format_05d_digits (n : Z) : 0 ≤ n → digits_only (format_05d n) = true.
Proof.
  intros Hn. unfold format_05d. destruct (Z.ltb_spec n 0); [lia|].
  rewrite digits_only_app, zeros_digits. by apply decimal_aux_digits.
Qed.

Lemma format_05d_length_5 (n : Z) :
  0 ≤ n ≤ 99999 → String.length (format_05d n) = 5%nat.
Proof.
  intros Hn. unfold format_05d. destruct (Z.ltb_spec n 0); [lia|].
  rewrite string_length_app, zeros_length.
  pose proof (decimal_aux_length_le (S (Z.to_nat (Z.log2 n))) n 4) as Hle.
  fold (decimal n) in Hle. change (10 ^ Z.of_nat 5) with 100000 in Hle. lia.
Qed.

Lemma format_05d_beyond (n : Z) :
  100000 ≤ n →
  format_05d n = decimal n ∧ (6 ≤ String.length (format_05d n))%nat.
Proof.
  intros Hn. unfold format_05d. destruct (Z.ltb_spec n 0); [lia|].
  assert (6 ≤ String.length (decimal n))%nat as Hge.
  { apply (decimal_aux_length_ge (S (Z.to_nat (Z.log2 n))) n 5).
    split; [exact Hn|]. apply decimal_fuel. lia. }
  replace (5 - String.length (decimal n))%nat with 0%nat by lia.
  rewrite string_app_nil. split; [done|lia].
Qed.

Lemma format_05d_inj (n m : Z) :
  0 ≤ n → 0 ≤ m → format_05d n = format_05d m → n = m.
Proof.
  intros Hn Hm Heq.
  by rewrite <- (format_05d_value n), <- (format_05d_value m), Heq.
Qed.

Lemma digits_only_relative (s : string) :
  digits_only s = true → String.prefix "/" s = false.
Proof.
  destruct s as [|c s]; [done|]. cbn [digits_only String.prefix].
  intros [[Hc _]%andb_true_iff _]%andb_true_iff.
  destruct (ascii_dec "/" c) as [<-|]; [|done]. by cbn in Hc.
Qed.

Lemma os_path_join_relative (a b : string) :
  String.prefix "/" b = false → os_path_join a b = a +:+ separator a +:+ b.
Proof.
  intros Hb. unfold os_path_join, separator. rewrite Hb.
  destruct (string_last a) as [c|] eqn:Hlast.
  - by destruct (Ascii.eqb c "/").
  - destruct a as [|x a]; [done|]. cbn in Hlast.
    exfalso. revert x Hlast. induction a as [|y a IH]; intros x Hlast; [done|].
    by apply (IH y).
Qed.

Lemma stack_directory_inj (out : string) (n m : Z) :
  0 ≤ n → 0 ≤ m →
  os_path_join out (format_05d n) = os_path_join out (format_05d m) → n = m.
Proof.
  intros Hn Hm.
  rewrite !os_path_join_relative
    by (apply digits_only_relative, format_05d_digits; lia).
  intros Heq. apply string_app_inj_l, string_app_inj_l in Heq.
  by apply format_05d_inj.
Qed.

(** ** The sinks *)

Section Sinks.
Context `{E : Externals}.

Lemma makedirs_lookup (fs : gmap string fsnode) (l : list string) (d : string) :
  d ∈ l → foldr (λ d fs, <[d := Dir]> fs) fs l !! d = Some Dir.
Proof.
  induction l as [|x l IH]; intros Hin; [by apply elem_of_nil in Hin|].
  cbn [foldr]. rewrite lookup_insert. destruct (decide (x = d)); [done|].
  apply IH. apply elem_of_cons in Hin as [->|Hin]; done.
Qed.

Lemma child_path_longer (path child : string) :
  String.prefix "/" child = false → child ≠ EmptyString →
  os_path_join path child ≠ path.
Proof.
  intros Hrel Hne Heq. apply (f_equal String.length) in Heq.
  rewrite os_path_join_relative, !string_length_app in Heq by done.
  destruct child; [done|]. cbn in Heq. lia.
Qed.

(** The directory sink: the stack [count] goes to the directory named by
    [format_05d count] below [output], with its two files. *)
Lemma directory_output_spec (out : string) (p : Project) (count : Z)
    (w : World) r w' :
  _dm_amun_directory_output out p count w = (r, w') →
  let path := os_path_join out (format_05d count) in
  (∃ msg, r = Raise (OSError msg)) ∨
  (r = Ok (Some path) ∧
   w_fs w' !! path = Some Dir ∧
   w_fs w' !! os_path_join path "Pipfile" = Some (File (pipfile_text p)) ∧
   w_fs w' !! os_path_join path "Pipfile.lock"
     = Some (File (pipfile_lock_text p (w_hashes w))) ∧
   w_hashes w' = w_hashes w).
Proof.
  intros Hrun path. revert Hrun.
  unfold _dm_amun_directory_output. fold path.
  unfold bind at 1, log. unfold bind at 1, os_makedirs. cbn [w_fs set_log].
  destruct (String.eqb path "") eqn:Hempty.
  { intros Hrun. injection Hrun as <- <-. left. eauto. }
  destruct (existsb _ _) eqn:Hfile.
  { intros Hrun. injection Hrun as <- <-. left. eauto. }
  set (fs1 := foldr _ _ _).
  assert (Hdir : fs1 !! path = Some Dir).
  { apply makedirs_lookup, elem_of_app. right. by left. }
  assert (Hpip : os_path_join path "Pipfile" ≠ path) by by apply child_path_longer.
  assert (Hlock : os_path_join path "Pipfile.lock" ≠ path) by by apply child_path_longer.
  assert (Hdiff : os_path_join path "Pipfile" ≠ os_path_join path "Pipfile.lock").
  { rewrite !os_path_join_relative by done. intros Heq.
    by apply string_app_inj_l, string_app_inj_l in Heq. }
  unfold bind at 1, to_files. unfold bind at 1, write_file at 1. cbn [w_fs set_fs].
  destruct (fs1 !! os_path_join path "Pipfile") as [[|content]|] eqn:Hold;
    try (intros Hrun; injection Hrun as <- <-; left; by eauto).
  all: unfold bind at 1; cbn [w_hashes set_fs set_log];
    unfold write_file; cbn [w_fs set_fs]; rewrite lookup_insert_ne by done.
  all: destruct (fs1 !! os_path_join path "Pipfile.lock") as [[|content']|] eqn:Hold';
    try (intros Hrun; injection Hrun as <- <-; left; by eauto).
  all: cbn; intros Hrun; injection Hrun as <- <-; right; cbn.
  all: split; [done|]; rewrite !lookup_insert_eq.
  all: rewrite !lookup_insert_ne by done.
  all: by rewrite lookup_insert_eq.
Qed.

End Sinks.

(** * The claims *)

Section DigestFacts.
Context `{E : Externals}.

Lemma lookups_empty_hashes (url : string) (hs : gmap nat (list string))
    (evs t : list event) (u : string) (pv : PackageVersion) resp :
  lookups url hs t evs → EvGetPackageHashes u pv resp ∈ evs →
  u = url ∧ hashes_of hs (pv_id pv) = [] ∧
  ∃ t', resp = index_get_package_hashes t' url (name pv) (locked_version pv).
Proof.
  revert t. induction evs as [|ev evs IH]; intros t Hl Hin;
    [by apply elem_of_nil in Hin|].
  destruct Hl as [(pv' & -> & Hpv') Hrest].
  apply elem_of_cons in Hin as [Heq|Hin]; [|by eapply IH].
  injection Heq as -> -> ->. eauto.
Qed.

Lemma appended_untouched (url : string) (hs : gmap nat (list string))
    (evs t : list event) (i : nat) :
  lookups url hs t evs → hashes_of hs i ≠ [] → appended evs i = [].
Proof.
  revert t. induction evs as [|ev evs IH]; intros t Hl Hne; [done|].
  destruct Hl as [(pv' & -> & Hpv') Hrest]. cbn.
  destruct (index_get_package_hashes _ _ _ _); [|by eapply IH].
  destruct (decide (pv_id pv' = i)) as [<-|]; [done|]. by eapply IH.
Qed.

Lemma appended_prefixed (evs : list event) (i : nat) :
  Forall (λ h, ∃ digest, h = "sha256:" +:+ digest) (appended evs i).
Proof.
  induction evs as [|ev evs IH]; [done|].
  destruct ev as [| u pv [entries|] |]; cbn; try done.
  apply Forall_app. split; [|done].
  destruct (decide _); [|done].
  induction entries as [|entry entries IHe]; cbn; [done|].
  destruct (entry !! "sha256") as [digest|]; [|done].
  constructor; [by exists digest|done].
Qed.

(** A pass of [_fill_package_digests] leaves an object with hashes as it
    is, and makes no lookup for it. *)
Lemma fill_package_digests_untouched (p : Project) (w : World) (pv : PackageVersion) :
  hashes_of (w_hashes w) (pv_id pv) ≠ [] →
  hashes_of (w_hashes (snd (_fill_package_digests p w))) (pv_id pv)
  = hashes_of (w_hashes w) (pv_id pv) ∧
  ∃ evs, w_trace (snd (_fill_package_digests p w)) = w_trace w ++ evs ∧
         ∀ url resp, EvGetPackageHashes url pv resp ∉ evs.
Proof.
  intros Hne. destruct (_fill_package_digests p w) as [r w'] eqn:Hrun. cbn.
  apply fill_package_digests_spec in Hrun as (evs & ru & Heff & _).
  destruct Heff as (_ & Htr & Hl & Hh & _). split.
  - rewrite Hh. erewrite appended_untouched by done. by rewrite app_nil_r.
  - exists evs. split; [done|]. intros url resp Hin.
    eapply lookups_empty_hashes in Hin as (_ & Hnil & _); done.
Qed.

End DigestFacts.

(** C3: filling the digests is idempotent.  In each of two passes in a row
    over a project, a package that has a hash when the pass starts keeps its
    hash list as it is and is not looked up at the index; so every hash the
    first pass placed is still in place, unchanged, after the second. *)
Theorem fill_package_digests_idempotent `{E : Externals}
    (p : Project) (w0 : World) (pv : PackageVersion) :
  let w1 := snd (_fill_package_digests p w0) in
  let w2 := snd (_fill_package_digests p w1) in
  (hashes_of (w_hashes w0) (pv_id pv) ≠ [] →
   hashes_of (w_hashes w1) (pv_id pv) = hashes_of (w_hashes w0) (pv_id pv) ∧
   ∃ evs, w_trace w1 = w_trace w0 ++ evs ∧
          ∀ url resp, EvGetPackageHashes url pv resp ∉ evs) ∧
  (hashes_of (w_hashes w1) (pv_id pv) ≠ [] →
   hashes_of (w_hashes w2) (pv_id pv) = hashes_of (w_hashes w1) (pv_id pv) ∧
   ∃ evs, w_trace w2 = w_trace w1 ++ evs ∧
          ∀ url resp, EvGetPackageHashes url pv resp ∉ evs).
Proof.
  intros w1 w2. split; intros Hne; by apply fill_package_digests_untouched.
Qed.

Lemma fill_package_digests_idempotent_witness :
  let w1 := snd (_fill_package_digests Scenario.stack Scenario.empty_world) in
  let w2 := snd (_fill_package_digests Scenario.stack w1) in
  hashes_of (w_hashes w1) (pv_id Scenario.flask) = ["sha256:flask-1.0"] ∧
  hashes_of (w_hashes w2) (pv_id Scenario.flask) = ["sha256:flask-1.0"] ∧
  ∃ evs, w_trace w2 = w_trace w1 ++ evs ∧
         ∀ url resp, EvGetPackageHashes url Scenario.flask resp ∉ evs.
Proof.
  intros w1 w2.
  destruct (fill_package_digests_idempotent Scenario.stack Scenario.empty_world
              Scenario.flask) as [_ Hsecond].
  destruct Hsecond as [Hsame Hevs]; [by vm_compute|].
  split; [by vm_compute|]. split; [|exact Hevs].
  fold w1 w2 in Hsame. rewrite Hsame. by vm_compute.
Defined.

(** C10: every hash string the digest filling appends is [sha256:] followed
    by a digest the index returned, in the order of the answer; every
    lookup goes to the first configured warehouse and to no other. *)
Theorem fill_package_digests_sha256 `{E : Externals} (p : Project) (w : World) :
  let w' := snd (_fill_package_digests p w) in
  ∃ evs,
    w_trace w' = w_trace w ++ evs ∧
    match config_warehouses with
    | [] => evs = []
    | first_warehouse :: _ =>
        lookups first_warehouse (w_hashes w) (w_trace w) evs
    end ∧
    ∀ i, hashes_of (w_hashes w') i = hashes_of (w_hashes w) i ++ appended evs i ∧
         Forall (λ h, ∃ digest, h = "sha256:" +:+ digest) (appended evs i).
Proof.
  destruct (_fill_package_digests p w) as [r w'] eqn:Hrun. cbn.
  apply fill_package_digests_spec in Hrun as (evs & ru & Heff & _ & Hnone & _).
  destruct Heff as (_ & Htr & Hl & Hh & _).
  exists evs. split; [done|]. split.
  - destruct config_warehouses; [by apply Hnone|done].
  - intros i. split; [apply Hh|apply appended_prefixed].
Qed.

(** C2, as the code has it: a lookup that fails while the digests of a
    generated project are filled is not contained.  The hashes of that
    package stay empty, the exception leaves [_fill_package_digests], and it
    leaves the loop of [_do_dependency_monkey] with it: the sink is not
    called for the project, no further project is generated, no result is
    returned.  What the lookups answered before the failure have appended
    to their packages stays: the world the exception leaves behind holds,
    for every package, the hashes it had and after them the hashes of its
    answered lookups. *)
Theorem hash_lookup_failure_propagates `{E : Externals}
    (p : Project) (rest : Generator)
    (output_function : Project → Z → M (option string))
    (decision_function : list PackageVersion → RandomState → bool * RandomState)
    (count : option Z) (dry_run : bool) (computed : Z) (out : list string)
    (w : World) (i : nat) (url : string) (pv : PackageVersion) (e : exn) :
  let w' := snd (_fill_package_digests p w) in
  (length (w_trace w) ≤ i)%nat →
  w_trace w' !! i = Some (EvGetPackageHashes url pv (Raise e)) →
  _fill_package_digests p w = (Raise e, w') ∧
  hashes_of (w_hashes w') (pv_id pv) = [] ∧
  (∃ evs, w_trace w' = w_trace w ++ evs ∧
          ∀ j, hashes_of (w_hashes w') j
               = hashes_of (w_hashes w) j ++ appended evs j) ∧
  dm_loop (GYield p rest) output_function decision_function count dry_run
          computed out w = (Raise e, w').
Proof.
  intros w' Hi Hev. subst w'.
  destruct (_fill_package_digests p w) as [r w'] eqn:Hrun. cbn in *.
  pose proof Hrun as Hspec.
  apply fill_package_digests_spec in Hspec as (evs & ru & Heff & _ & _ & Hr).
  destruct Heff as (_ & Htr & _ & Hh & Hraise).
  rewrite Htr, lookup_app_r in Hev by done.
  apply list_elem_of_lookup_2 in Hev.
  destruct (Hraise _ _ _ Hev) as [Hru Hnil]. rewrite Hru in Hr. subst r.
  split; [done|]. split; [done|]. split; [by exists evs|].
  unfold bind at 1. by rewrite Hrun.
Qed.

Lemma hash_lookup_failure_propagates_witness :
  let w' := snd (_fill_package_digests Scenario.broken_stack Scenario.empty_world) in
  _fill_package_digests Scenario.broken_stack Scenario.empty_world
  = (Raise (ExternalError "index unreachable"), w') ∧
  hashes_of (w_hashes w') (pv_id Scenario.broken) = [] ∧
  hashes_of (w_hashes w') (pv_id Scenario.flask) = ["sha256:flask-1.0"] ∧
  dm_loop (GYield Scenario.broken_stack GStop) (λ _ _, ret None)
          (λ _ r, (true, r)) None false 0 [] Scenario.empty_world
  = (Raise (ExternalError "index unreachable"), w').
Proof.
  intros w'.
  destruct (hash_lookup_failure_propagates Scenario.broken_stack GStop
              (λ _ _, ret None) (λ _ r, (true, r)) None false 0 []
              Scenario.empty_world 1 "https://pypi.org/simple" Scenario.broken
              (ExternalError "index unreachable"))
    as (Hfill & Hnil & (evs & Htr & Hh) & Hloop).
  - vm_compute. lia.
  - vm_compute. reflexivity.
  - split; [exact Hfill|]. split; [exact Hnil|]. split; [|exact Hloop].
    unfold w'. rewrite (Hh (pv_id Scenario.flask)).
    change (w_trace Scenario.empty_world ++ evs) with evs in Htr.
    rewrite <- Htr. vm_compute. reflexivity.
Defined.

(** Counterexample to C2 as stated: the index cannot be reached for the second
    package of the first stack, and the run, a dry run that touches no sink,
    ends with that exception instead of going on to the eight stacks that
    remain; the package is left without hashes, the package before it keeps
    the hash it was given. *)
Lemma hash_lookup_failure_aborts_run :
  let run :=
    dependency_monkey module_globals Scenario.broken_dependency "out"
      (Some 0) (Some "all") true None None Scenario.empty_world in
  fst run = Raise (ExternalError "index unreachable") ∧
  hashes_of (w_hashes (snd run)) (pv_id Scenario.broken) = [] ∧
  hashes_of (w_hashes (snd run)) (pv_id Scenario.flask) = ["sha256:flask-1.0"] ∧
  (∀ r, fst run ≠ Ok r) ∧
  match @graph_from_project Scenario.externals [] Scenario.broken_dependency with
  | Ok g => length (drain (walk g) (λ _ r, (true, r))
                          (w_random Scenario.empty_world)) = 9%nat
  | Raise _ => False
  end.
Proof. vm_compute. repeat split; done. Qed.

(** C1: with a bound [N >= 1] on the count, generation stops after the
    [N]-th project: the run is the run over the walk cut after its [N]-th
    project, and the count it reports is the smaller of [N] and the number
    of projects the walk admits.  With one direct dependency in three
    versions and the decision function [all], a bound of 1 gives one stack
    and [computed = 1], where no bound gives three. *)
Theorem count_bound_stops_generation `{E : Externals}
    (globals : list string) (project : Project) (s : sink)
    (decision_function : list PackageVersion → RandomState → bool * RandomState)
    (N : Z) (dry_run : bool) (w : World) :
  1 ≤ N →
  let run :=
    _do_dependency_monkey project (sink_function globals s) decision_function
                          (Some N) dry_run w in
  run = (let! g := from_project project in
         dm_loop (truncate (walk g) (Z.to_nat N)) (sink_function globals s)
                 decision_function None dry_run 0 []) w ∧
  match fst run with
  | Ok res =>
      ∃ g, graph_from_project (w_trace w) project = Ok g ∧
           computed res
           = Z.min N (Z.of_nat (length (drain (walk g) decision_function
                                              (w_random w))))
  | Raise _ => True
  end ∧
  fst (dependency_monkey module_globals Scenario.one_dependency "out" (Some 0)
         (Some "all") false None (Some 1) Scenario.empty_world)
  = Ok (RetResult {| output := ["out/00001"]; computed := 1 |}) ∧
  fst (dependency_monkey module_globals Scenario.one_dependency "out" (Some 0)
         (Some "all") false None None Scenario.empty_world)
  = Ok (RetResult {| output := ["out/00001"; "out/00002"; "out/00003"];
                     computed := 3 |}).
Proof.
  intros HN run. subst run. split; [|split; [|by vm_compute]].
  - unfold _do_dependency_monkey. apply bind_ext; [done|]. intros g w1.
    rewrite dm_loop_truncate by lia. by rewrite Z.sub_0_r.
  - unfold _do_dependency_monkey, bind at 1, from_project, external.
    destruct (graph_from_project (w_trace w) project) as [g|e]; [|done].
    destruct (dm_loop _ _ _ _ _ _ _ _) as [[res|e] w'] eqn:Hloop; [|done].
    exists g. split; [done|].
    apply dm_loop_computed in Hloop; [|intros; apply same_random_sink|lia].
    cbn in Hloop. by rewrite Hloop.
Qed.

Lemma count_bound_stops_generation_witness :
  match fst (_do_dependency_monkey Scenario.one_dependency
               (sink_function module_globals (DirectorySink "out"))
               (λ _ r, (true, r)) (Some 1) false Scenario.empty_world) with
  | Ok res =>
      ∃ g, @graph_from_project Scenario.externals
             (w_trace Scenario.empty_world) Scenario.one_dependency = Ok g ∧
           computed res
           = Z.min 1 (Z.of_nat (length (drain (walk g) (λ _ r, (true, r))
                                              (w_random Scenario.empty_world))))
  | Raise _ => True
  end.
Proof.
  refine (proj1 (proj2 (count_bound_stops_generation module_globals
            Scenario.one_dependency (DirectorySink "out") (λ _ r, (true, r))
            1 false Scenario.empty_world _))).
  lia.
Defined.



(** C9: a count bound that is zero or negative ends the call before
    anything is traversed.  The caller gets the error code 3 and the error
    is logged (or, when the decision function is unknown as well, the
    [ValueError] raised for that); no external call is made, so the graph
    is not built, no digest is filled, nothing is written. *)
Theorem nonpositive_count_is_rejected `{E : Externals}
    (globals : list string) (project : Project) (out : string)
    (seed : option Z) (decision : option string) (dry_run : bool)
    (context : option string) (c : Z) (w : World) :
  c ≤ 0 →
  let run :=
    dependency_monkey globals project out seed decision dry_run context
                      (Some c) w in
  match lookup_decision decision with
  | Some _ =>
      fst run = Ok (RetInt 3) ∧
      w_log (snd run)
      = w_log w ++ [LogError "Number of stacks has to be a positive integer" []]
  | None => (∃ msg, fst run = Raise (ValueError msg)) ∧ w_log (snd run) = w_log w
  end ∧
  w_trace (snd run) = w_trace w ∧
  w_hashes (snd run) = w_hashes w ∧
  w_stdout (snd run) = w_stdout w ∧
  w_fs (snd run) = w_fs w.
Proof.
  intros Hc run. subst run. unfold dependency_monkey.
  destruct (lookup_decision decision) as [f|].
  - unfold bind at 1, random_seed_call.
    destruct (Z.leb_spec c 0); [|lia]. by cbn.
  - cbn. repeat split; eauto.
Qed.

Lemma nonpositive_count_is_rejected_witness :
  let run :=
    dependency_monkey module_globals Scenario.one_dependency "out" (Some 0)
      (Some "all") false None (Some 0) Scenario.empty_world in
  fst run = Ok (RetInt 3) ∧ w_trace (snd run) = [] ∧ w_fs (snd run) = ∅.
Proof.
  pose proof (nonpositive_count_is_rejected module_globals
                Scenario.one_dependency "out" (Some 0) (Some "all") false None 0
                Scenario.empty_world) as H.
  destruct H as ((Hret & _) & Htrace & _ & _ & Hfs); [lia|].
  exact (conj Hret (conj Htrace Hfs)).
Defined.

(** ** Two runs side by side *)

Section SideBySide.
Context `{E : Externals}.


























End SideBySide.



(** C5, as the code has it: the [k]-th stack goes to its own directory
    below the destination, named by the decimal digits of [k] padded with
    zeros to five characters: five digits exactly up to 99999, the plain
    decimal of six or more digits beyond; different stacks get different
    directories; unless the file system refuses, the directory then holds
    the [Pipfile] and the [Pipfile.lock] of the stack.  Two stacks make the
    directories [00001] and [00002], each with both files. *)
Theorem stack_directory_layout `{E : Externals}
    (out : string) (p : Project) (k : Z) (w : World) :
  1 ≤ k →
  let name := format_05d k in
  let path := os_path_join out name in
  digits_only name = true ∧
  decimal_value name = k ∧
  (k ≤ 99999 → String.length name = 5%nat) ∧
  (100000 ≤ k → name = decimal k ∧ (6 ≤ String.length name)%nat) ∧
  (∀ j, 1 ≤ j → os_path_join out (format_05d j) = path → j = k) ∧
  (let run := _dm_amun_directory_output out p k w in
   (∃ msg, fst run = Raise (OSError msg)) ∨
   (fst run = Ok (Some path) ∧
    w_fs (snd run) !! path = Some Dir ∧
    w_fs (snd run) !! os_path_join path "Pipfile" = Some (File (pipfile_text p)) ∧
    w_fs (snd run) !! os_path_join path "Pipfile.lock"
      = Some (File (pipfile_lock_text p (w_hashes w))))) ∧
  (let run :=
     dependency_monkey module_globals Scenario.one_dependency "out" (Some 0)
       (Some "all") false None (Some 2) Scenario.empty_world in
   fst run = Ok (RetResult {| output := ["out/00001"; "out/00002"];
                              computed := 2 |}) ∧
   w_fs (snd run)
   = list_to_map
       [ ("out", Dir);
         ("out/00001", Dir);
         ("out/00001/Pipfile", File "flask==1.0;");
         ("out/00001/Pipfile.lock", File "flask==1.0#sha256:flask-1.0,;");
         ("out/00002", Dir);
         ("out/00002/Pipfile", File "flask==1.1;");
         ("out/00002/Pipfile.lock", File "flask==1.1#sha256:flask-1.1,;") ]).
Proof.
  intros Hk name path.
  split; [apply format_05d_digits; lia|].
  split; [apply format_05d_value; lia|].
  split; [intros; apply format_05d_length_5; lia|].
  split; [intros; by apply format_05d_beyond|].
  split; [intros j Hj Heq; apply (stack_directory_inj out); [lia..|done]|].
  split; [|by vm_compute].
  destruct (_dm_amun_directory_output out p k w) as [r w'] eqn:Hrun.
  apply directory_output_spec in Hrun as [Hraise|(-> & ? & ? & ? & _)];
    [by left|by right].
Qed.

Lemma stack_directory_layout_witness :
  digits_only (format_05d 1) = true ∧
  decimal_value (format_05d 1) = 1 ∧
  String.length (format_05d 1) = 5%nat.
Proof.
  destruct (stack_directory_layout "out" Scenario.stack 1 Scenario.empty_world
              ltac:(lia)) as (Hdigits & Hvalue & Hlength & _).
  exact (conj Hdigits (conj Hvalue (Hlength ltac:(lia)))).
Defined.

(** Counterexample to C5 as stated: the stack 100000 goes to the directory
    [100000], a name of six digits. *)
Lemma stack_100000_has_six_digits :
  fst (_dm_amun_directory_output "out" Scenario.stack 100000 Scenario.empty_world)
  = Ok (Some "out/100000") ∧
  String.length (format_05d 100000) = 6%nat ∧
  ¬ (∀ k, 1 ≤ k → String.length (format_05d k) = 5%nat).
Proof.
  split; [by vm_compute|]. split; [by vm_compute|].
  intros Hall. specialize (Hall 100000 ltac:(lia)). by vm_compute in Hall.
Qed.

Lemma load_global_unbound `{E : Externals} (n : string) (w : World) :
  bool_decide (n ∈ module_globals) = false →
  load_global module_globals n w = (Raise (NameError n), w).
Proof. intros Hn. unfold load_global. by rewrite Hn. Qed.

(** C6: the wrapper meant to submit a stack to Amun calls [amun_inspect], a
    name that is bound nowhere in the module.  The [NameError] is raised
    inside the [try], so it is logged as a failed submission and the
    wrapper returns [None]: nothing is sent to Amun and no inspection
    identifier is ever recorded, whatever Amun would have answered.  With
    the name bound the three stacks of the example are submitted and their
    identifiers recorded. *)
Theorem amun_inspect_is_unbound `{E : Externals}
    (out : string) (d : list (string * json)) (p : Project) (count : Z)
    (w : World) :
  _dm_amun_inspect_wrapper module_globals out (JDict d) p count w
  = (Ok None,
     set_log (w_log w ++ [LogException "Failed to submit stack to Amun analysis: %s"
                                       (NameError "amun_inspect")]) w) ∧
  (let run :=
     dependency_monkey module_globals Scenario.one_dependency "http://amun"
       (Some 0) (Some "all") false None None Scenario.empty_world in
   fst run = Ok (RetResult {| output := []; computed := 3 |}) ∧
   Forall (λ ev, match ev with
                 | EvAmunInspect _ _ _ => False
                 | _ => True
                 end) (w_trace (snd run))) ∧
  fst (dependency_monkey ("amun_inspect" :: module_globals)
         Scenario.one_dependency "http://amun" (Some 0) (Some "all") false None
         None Scenario.empty_world)
  = Ok (RetResult {| output := ["inspection-1"; "inspection-2"; "inspection-3"];
                     computed := 3 |}).
Proof.
  split; [|split; [|by vm_compute]].
  - unfold _dm_amun_inspect_wrapper, bind at 1, to_dict. unfold bind at 1.
    cbn [setitem]. unfold ret at 1. unfold try_except, bind at 1.
    by rewrite load_global_unbound by by vm_compute.
  - vm_compute. split; [done|]. repeat constructor.
Qed.

(** C8: the sink for the destination [-] calls [json.dump] on [sys.stdout],
    and neither [json] nor [sys] is bound in the module: the call raises a
    [NameError] before anything is written, and the run ends with it at
    the first stack.  With both names bound the sink writes the sorted,
    indented serialization of the project's dict to standard output. *)
Theorem stdout_output_raises_name_error `{E : Externals}
    (p : Project) (count : Z) (w : World) :
  _dm_stdout_output module_globals p count w = (Raise (NameError "json"), w) ∧
  (let run :=
     dependency_monkey module_globals Scenario.one_dependency "-" (Some 0)
       (Some "all") false None None Scenario.empty_world in
   fst run = Raise (NameError "json") ∧ w_stdout (snd run) = []) ∧
  _dm_stdout_output ("json" :: "sys" :: module_globals) p count w
  = (Ok None,
     set_stdout (w_stdout w
                   ++ [json_dumps_sorted_indent2 (project_to_dict p (w_hashes w))])
                w).
Proof.
  split; [|split; [by vm_compute|]].
  - unfold _dm_stdout_output, bind at 1.
    by rewrite load_global_unbound by by vm_compute.
  - unfold _dm_stdout_output, load_global.
    assert (bool_decide ("json" ∈ "json" :: "sys" :: module_globals) = true)
      as -> by by vm_compute.
    assert (bool_decide ("sys" ∈ "json" :: "sys" :: module_globals) = true)
      as -> by by vm_compute.
    done.
Qed.

(** * Further properties of the module *)

Section FurtherDigests.
Context `{E : Externals}.

Lemma looked_up_app (evs1 evs2 : list event) :
  looked_up (evs1 ++ evs2) = looked_up evs1 ++ looked_up evs2.
Proof. apply omap_app. Qed.

Lemma for_each_fill_order (url : string) (l : list PackageVersion) :
  ∀ (w : World) r w',
    for_each l (fill_package_version url) w = (r, w') →
    ∃ evs, w_trace w' = w_trace w ++ evs ∧
           looked_up evs `sublist_of` l ∧
           length (looked_up evs) = length evs.
Proof.
  induction l as [|pv l IH]; intros w r w' Hrun.
  - cbn in Hrun. injection Hrun as <- <-. exists [].
    by rewrite app_nil_r.
  - cbn [for_each] in Hrun. unfold bind at 1 in Hrun.
    destruct (fill_package_version url pv w) as [r1 w1] eqn:Hone.
    apply fill_package_version_spec in Hone as (evs1 & Heff1 & Hfilled & Hempty).
    destruct Heff1 as (_ & Htr1 & _).
    assert (Hstep : looked_up evs1 `sublist_of` [pv]
                    ∧ length (looked_up evs1) = length evs1).
    { destruct (hashes_of (w_hashes w) (pv_id pv)) as [|h hs] eqn:Hhs.
      - destruct Hempty as [resp ->]; [done|]. by cbn.
      - destruct Hfilled as [-> _]; [done|]. split; [|done].
        apply sublist_nil_l. }
    destruct Hstep as [Hsub1 Hlen1].
    destruct r1 as [[]|e].
    + apply IH in Hrun as (evs2 & Htr2 & Hsub2 & Hlen2).
      exists (evs1 ++ evs2). split; [by rewrite Htr2, Htr1, app_assoc|].
      rewrite looked_up_app, !length_app, Hlen1, Hlen2. split; [|done].
      by apply (sublist_app _ [pv] _ l).
    + injection Hrun as <- <-. exists evs1. split; [done|]. split; [|done].
      by apply (sublist_inserts_r l _ [pv]).
Qed.

(** The inner loop stops at the first entry without a [sha256] digest. *)
Lemma for_each_entry_key_error (pv : PackageVersion)
    (entries : list (gmap string string)) :
  Exists (λ entry, entry !! "sha256" = None) entries →
  ∀ (w : World),
    fst (for_each entries
           (λ entry, let! digest := getitem entry "sha256" in
                     hashes_append pv ("sha256:" +:+ digest)) w)
    = Raise (KeyError "sha256").
Proof.
  induction entries as [|entry entries IH]; intros Hex w;
    [by apply Exists_nil in Hex|].
  cbn [for_each]. unfold bind at 1 2, getitem.
  destruct (entry !! "sha256") as [digest|] eqn:Hd; [|done].
  cbn. apply IH. apply Exists_cons in Hex as [Hhere|Hlater]; [congruence|done].
Qed.

End FurtherDigests.

(** X1: within a pass of [_fill_package_digests] the lookups follow the
    lock: the packages looked up are, in this order and each entry at most
    once, entries of [packages] followed by [dev_packages]; and a pass makes
    no other external call. *)
Theorem fill_lookups_follow_lock_order `{E : Externals} (p : Project) (w : World) :
  let w' := snd (_fill_package_digests p w) in
  ∃ evs, w_trace w' = w_trace w ++ evs ∧
         looked_up evs
           `sublist_of` packages (pipfile_lock p) ++ dev_packages (pipfile_lock p) ∧
         length (looked_up evs) = length evs.
Proof.
  unfold _fill_package_digests, bind at 1.
  destruct config_warehouses as [|url urls].
  - cbn. exists []. split; [by rewrite app_nil_r|]. split; [|done].
    apply sublist_nil_l.
  - cbn -[for_each]. unfold bind.
    destruct (for_each _ _ w) as [r1 w1] eqn:Hloop.
    apply for_each_fill_order in Hloop as (evs & Htr & Hsub & Hlen).
    exists evs. by destruct r1 as [[]|e].
Qed.

(** X2: when no warehouse is configured, [_fill_package_digests] raises
    the [IndexError] of [config.warehouses[0]] before it looks at any
    package; so a run never reaches its output function, whichever it is,
    and can only return with nothing computed. *)
Theorem no_warehouse_no_stack `{E : Externals}
    (project : Project) (output_function other : Project → Z → M (option string))
    (decision_function : list PackageVersion → RandomState → bool * RandomState)
    (count : option Z) (dry_run : bool) (p : Project) (w : World) :
  config_warehouses = [] →
  _fill_package_digests p w = (Raise (IndexError "list index out of range"), w) ∧
  _do_dependency_monkey project output_function decision_function count dry_run w
  = _do_dependency_monkey project other decision_function count dry_run w ∧
  match fst (_do_dependency_monkey project output_function decision_function
                                   count dry_run w) with
  | Ok res => computed res = 0 ∧ output res = []
  | Raise _ => True
  end.
Proof.
  intros Hcfg.
  assert (Hfill : ∀ q w1, _fill_package_digests q w1
                          = (Raise (IndexError "list index out of range"), w1)).
  { intros q w1. unfold _fill_package_digests. by rewrite Hcfg. }
  assert (Hloop : ∀ gen f w1,
            dm_loop gen f decision_function count dry_run 0 [] w1
            = dm_loop gen other decision_function count dry_run 0 [] w1
            ∧ match fst (dm_loop gen f decision_function count dry_run 0 [] w1) with
              | Ok res => computed res = 0 ∧ output res = []
              | Raise _ => True
              end).
  { induction gen as [|q rest IH|partial k IH]; intros f w1; cbn [dm_loop].
    - done.
    - unfold bind. by rewrite !Hfill.
    - unfold bind.
      destruct (decide_on decision_function partial w1) as [[b|e] w2]; [|done].
      apply IH. }
  split; [apply Hfill|].
  unfold _do_dependency_monkey, bind.
  destruct (from_project project w) as [[g|e] w1]; [|done].
  apply Hloop.
Qed.

Lemma no_warehouse_no_stack_witness :
  fst (@_do_dependency_monkey Scenario.unconfigured Scenario.one_dependency
         (_dm_amun_directory_output "out") (λ _ r, (true, r)) None false
         (Scenario.blank Scenario.unconfigured 0))
  = Raise (IndexError "list index out of range").
Proof.
  destruct (@no_warehouse_no_stack Scenario.unconfigured Scenario.one_dependency
              (_dm_amun_directory_output "out") (λ _ _, ret None)
              (λ _ r, (true, r)) None false Scenario.stack
              (Scenario.blank Scenario.unconfigured 0) eq_refl) as (_ & -> & _).
  by vm_compute.
Defined.

(** X3: an answer of the index with an entry that has no [sha256] digest
    is taken up to that entry only: the digests before it are appended, the
    [KeyError] leaves the loop, and since the package then has hashes, no
    later pass looks it up again to add the rest. *)
Theorem entry_without_sha256 `{E : Externals}
    (url : string) (pv : PackageVersion) (w : World)
    (entries : list (gmap string string)) :
  hashes_of (w_hashes w) (pv_id pv) = [] →
  index_get_package_hashes (w_trace w) url (name pv) (locked_version pv)
  = Ok entries →
  Exists (λ entry, entry !! "sha256" = None) entries →
  let run := fill_package_version url pv w in
  fst run = Raise (KeyError "sha256") ∧
  hashes_of (w_hashes (snd run)) (pv_id pv) = sha256_hashes entries ∧
  (sha256_hashes entries ≠ [] →
   fill_package_version url pv (snd run) = (Ok tt, snd run)).
Proof.
  intros Hnil Hresp Hex run.
  assert (Hrun : ∃ w', run = (Raise (KeyError "sha256"), w') ∧
                       hashes_of (w_hashes w') (pv_id pv) = sha256_hashes entries).
  { subst run. unfold fill_package_version, bind at 1, get_hashes.
    rewrite Hnil. unfold bind, get_package_hashes, external.
    cbn -[for_each]. rewrite Hresp.
    set (w1 := set_trace _ w).
    pose proof (for_each_entry_key_error pv entries Hex w1) as Hraise.
    unfold bind in Hraise.
    destruct (for_each entries _ w1) as [r w'] eqn:Hloop. cbn in Hraise. subst r.
    apply (for_each_entry_spec pv entries w1) in Hloop as (_ & _ & Hh & _).
    exists w'. split; [done|]. rewrite Hh. subst w1. cbn. rewrite Hnil.
    by destruct (decide _). }
  destruct Hrun as (w' & -> & Hpv). cbn [fst snd].
  split; [done|]. split; [done|]. intros Hne.
  unfold fill_package_version, bind, get_hashes. rewrite Hpv.
  by destruct (sha256_hashes entries).
Qed.

Lemma entry_without_sha256_witness :
  let run :=
    @fill_package_version Scenario.mixed "https://pypi.org/simple" Scenario.flask
      (Scenario.blank Scenario.mixed 0) in
  fst run = Raise (KeyError "sha256") ∧
  hashes_of (w_hashes (snd run)) (pv_id Scenario.flask) = ["sha256:0a"].
Proof.
  destruct (@entry_without_sha256 Scenario.mixed "https://pypi.org/simple"
              Scenario.flask (Scenario.blank Scenario.mixed 0)
              [Scenario.entry_of "0a"; {[ "md5" := "0b" ]}; Scenario.entry_of "0c"])
    as (Hr & Hh & _).
  - reflexivity.
  - reflexivity.
  - apply Exists_cons_tl, Exists_cons_hd. by vm_compute.
  - split; [exact Hr|]. rewrite Hh. by vm_compute.
Defined.

Section FurtherLoop.
Context `{E : Externals}.

Lemma append_entry_length (out : list string) (entry : option string) :
  out `prefix_of` append_entry out entry ∧
  (length (append_entry out entry) ≤ S (length out))%nat.
Proof.
  destruct entry as [[|c e]|]; cbn; try (split; [done|lia]).
  split; [by apply prefix_app_r|]. rewrite length_app. cbn. lia.
Qed.

Lemma dm_loop_bounds (output_function : Project → Z → M (option string))
    (decision_function : list PackageVersion → RandomState → bool * RandomState)
    (count : option Z) (dry_run : bool) (gen : Generator) :
  ∀ (computed0 : Z) (out : list string) (w : World) res w',
    dm_loop gen output_function decision_function count dry_run computed0 out w
    = (Ok res, w') →
    computed0 ≤ computed res ∧
    out `prefix_of` output res ∧
    Z.of_nat (length (output res)) - Z.of_nat (length out)
    ≤ computed res - computed0 ∧
    match count with
    | Some N => computed0 < Z.max 1 N → computed res ≤ Z.max 1 N
    | None => True
    end.
Proof.
  induction gen as [|p rest IH|partial k IH]; intros computed0 out w res w' Hrun;
    cbn [dm_loop] in Hrun.
  - injection Hrun as <- <-. cbn. repeat split; try lia; [done|].
    destruct count; [lia|done].
  - unfold bind at 1 in Hrun.
    destruct (_fill_package_digests p w) as [[gp|e] w1]; [|done].
    unfold bind at 1 in Hrun.
    set (step := if negb dry_run then _ else _) in Hrun.
    destruct (step w1) as [[out1|e] w2] eqn:Hstep; [|done].
    assert (Hout1 : out `prefix_of` out1 ∧ (length out1 ≤ S (length out))%nat).
    { subst step. destruct dry_run; cbn in Hstep.
      - injection Hstep as <- <-. split; [done|lia].
      - unfold bind in Hstep.
        destruct (output_function gp (computed0 + 1) w1) as [[entry|e] w3]; [|done].
        injection Hstep as <- <-. apply append_entry_length. }
    destruct Hout1 as [Hpre Hlen].
    destruct (match count with Some c => c <=? computed0 + 1 | None => false end)
      eqn:Hstop.
    + injection Hrun as <- <-. cbn. repeat split; try lia; [done|].
      destruct count as [N|]; [|done]. apply Z.leb_le in Hstop. lia.
    + apply IH in Hrun as (Hc & Hp & Hl & Hb).
      split; [lia|]. split; [by etrans|]. split; [lia|].
      destruct count as [N|]; [|done]. apply Z.leb_gt in Hstop. lia.
  - unfold bind at 1 in Hrun.
    destruct (decide_on decision_function partial w) as [[b|e] w1]; [|done].
    by eapply IH.
Qed.

Lemma stack_directory_nonempty (out : string) (k : Z) :
  1 ≤ k → os_path_join out (format_05d k) ≠ EmptyString.
Proof.
  intros Hk Heq. apply (f_equal String.length) in Heq.
  rewrite os_path_join_relative in Heq
    by (apply digits_only_relative, format_05d_digits; lia).
  rewrite !string_length_app in Heq.
  pose proof (format_05d_value k) as Hv.
  destruct (format_05d k); [cbn in Hv; lia|cbn in Heq; lia].
Qed.

Lemma dm_loop_directories (out_dir : string)
    (decision_function : list PackageVersion → RandomState → bool * RandomState)
    (count : option Z) (gen : Generator) :
  ∀ (computed0 : Z) (out : list string) (w : World) res w',
    0 ≤ computed0 →
    dm_loop gen (_dm_amun_directory_output out_dir) decision_function count false
            computed0 out w = (Ok res, w') →
    computed0 ≤ computed res ∧
    output res
    = out ++ map (λ k, os_path_join out_dir (format_05d k))
                 (seqZ (computed0 + 1) (computed res - computed0)).
Proof.
  induction gen as [|p rest IH|partial k IH];
    intros computed0 out w res w' H0 Hrun; cbn [dm_loop] in Hrun.
  - injection Hrun as <- <-. cbn. rewrite Z.sub_diag. cbn.
    by rewrite app_nil_r.
  - unfold bind at 1 in Hrun.
    destruct (_fill_package_digests p w) as [[gp|e] w1]; [|done].
    cbn [negb] in Hrun. unfold bind at 1 2 in Hrun.
    destruct (_dm_amun_directory_output out_dir gp (computed0 + 1) w1)
      as [[entry|e] w2] eqn:Hsink; [|done].
    apply directory_output_spec in Hsink as [[msg Hmsg]|(Hentry & _)]; [done|].
    injection Hentry as ->.
    assert (Hout : append_entry out
                     (Some (os_path_join out_dir (format_05d (computed0 + 1))))
                   = out ++ [os_path_join out_dir (format_05d (computed0 + 1))]).
    { pose proof (stack_directory_nonempty out_dir (computed0 + 1)) as Hne.
      destruct (os_path_join _ _); [by destruct Hne; [lia|]|done]. }
    cbn [ret] in Hrun. unfold ret at 1 in Hrun. rewrite Hout in Hrun.
    destruct (match count with Some c => c <=? computed0 + 1 | None => false end).
    + injection Hrun as <- <-. cbn. split; [lia|].
      replace (computed0 + 1 - computed0) with 1 by lia. done.
    + apply IH in Hrun as [Hc ->]; [|lia]. split; [lia|].
      rewrite <- app_assoc. cbn. f_equal.
      rewrite (seqZ_cons (computed0 + 1)) by lia. cbn. do 2 f_equal. 
      f_equal; lia.
  - unfold bind at 1 in Hrun.
    destruct (decide_on decision_function partial w) as [[b|e] w1]; [|done].
    by eapply IH.
Qed.

End FurtherLoop.

(** X4: whatever the output function does, a result of
    [_do_dependency_monkey] never records more outputs than it counted
    stacks, the count is not negative, and under a bound [N] it does not
    pass [N] (nor 1, when [N] is smaller than that). *)
Theorem outputs_bounded_by_computed `{E : Externals}
    (project : Project) (output_function : Project → Z → M (option string))
    (decision_function : list PackageVersion → RandomState → bool * RandomState)
    (count : option Z) (dry_run : bool) (w : World) :
  match fst (_do_dependency_monkey project output_function decision_function
                                   count dry_run w) with
  | Ok res =>
      0 ≤ computed res ∧
      Z.of_nat (length (output res)) ≤ computed res ∧
      match count with
      | Some N => computed res ≤ Z.max 1 N
      | None => True
      end
  | Raise _ => True
  end.
Proof.
  unfold _do_dependency_monkey, bind.
  destruct (from_project project w) as [[g|e] w1]; [|done].
  destruct (dm_loop _ _ _ _ _ _ _ _) as [[res|e] w'] eqn:Hloop; [|done].
  apply dm_loop_bounds in Hloop as (Hc & _ & Hl & Hb). cbn in *.
  split; [done|]. split; [lia|]. destruct count as [N|]; [|done].
  apply Hb. lia.
Qed.

(** X5: with the directory sink the recorded outputs are the directories
    of the stacks written, in order: one per counted stack, the [k]-th
    being the destination joined with [format_05d k]. *)
Theorem directory_outputs_are_the_stacks `{E : Externals}
    (project : Project) (out_dir : string)
    (decision_function : list PackageVersion → RandomState → bool * RandomState)
    (count : option Z) (w : World) :
  match fst (_do_dependency_monkey project (_dm_amun_directory_output out_dir)
                                   decision_function count false w) with
  | Ok res =>
      output res
      = map (λ k, os_path_join out_dir (format_05d k)) (seqZ 1 (computed res))
  | Raise _ => True
  end.
Proof.
  unfold _do_dependency_monkey, bind.
  destruct (from_project project w) as [[g|e] w1]; [|done].
  destruct (dm_loop _ _ _ _ _ _ _ _) as [[res|e] w'] eqn:Hloop; [|done].
  cbn [fst]. apply dm_loop_directories in Hloop as [_ ->]; [|done]. cbn.
  by rewrite Z.sub_0_r.
Qed.

Section FurtherSinks.
Context `{E : Externals}.

Lemma setitem_then_get (d : list (string * json)) (key : string) (v : json) :
  dict_get (if existsb (λ kv, String.eqb (fst kv) key) d
            then map (λ kv, if String.eqb (fst kv) key then (key, v) else kv) d
            else d ++ [(key, v)]) key
  = Some v.
Proof.
  unfold dict_get. induction d as [|[k0 v0] d IH]; cbn.
  - by rewrite String.eqb_refl.
  - destruct (String.eqb k0 key) eqn:Hk; cbn.
    + by rewrite String.eqb_refl.
    + destruct (existsb _ d); cbn; by rewrite Hk.
Qed.

Lemma run_monkey_returns_result (project : Project)
    (output_function : Project → Z → M (option string))
    (decision_function : list PackageVersion → RandomState → bool * RandomState)
    (count : option Z) (dry_run : bool) (w : World) (code : Z) :
  fst (run_monkey project output_function decision_function count dry_run w)
  ≠ Ok (RetInt code).
Proof.
  unfold run_monkey, bind.
  by destruct (_do_dependency_monkey _ _ _ _ _ w) as [[res|e] w'].
Qed.

End FurtherSinks.

(** X6: with a dict for context, no failure of the submission leaves
    [_dm_amun_inspect_wrapper]: it returns an identifier or [None], never an
    exception.  An identifier is returned only after one request to Amun
    that was answered, is the [inspection_id] of the answer, and the request
    carried the dict of the project under the key [python]; [None] comes
    with the exception in the log. *)
Theorem amun_wrapper_contains_failures `{E : Externals}
    (globals : list string) (out : string) (d : list (string * json))
    (p : Project) (count : Z) (w : World) :
  let run := _dm_amun_inspect_wrapper globals out (JDict d) p count w in
  match fst run with
  | Ok (Some inspection_id) =>
      ∃ payload response,
        w_trace (snd run)
        = w_trace w ++ [EvAmunInspect out payload (Ok response)] ∧
        dict_get payload "python" = Some (project_to_dict p (w_hashes w)) ∧
        response !! "inspection_id" = Some inspection_id
  | Ok None =>
      ∃ exc, w_log (snd run)
             = w_log w ++ [LogException
                             "Failed to submit stack to Amun analysis: %s" exc]
  | Raise _ => False
  end.
Proof.
  intros run. subst run.
  destruct (_dm_amun_inspect_wrapper globals out (JDict d) p count w)
    as [r w'] eqn:Hrun. cbn [fst snd].
  revert Hrun.
  unfold _dm_amun_inspect_wrapper, bind at 1, to_dict. unfold bind at 1.
  cbn [setitem]. unfold ret at 1.
  set (payload := if existsb _ d then _ else _).
  assert (Hpy : dict_get payload "python" = Some (project_to_dict p (w_hashes w)))
    by apply setitem_then_get.
  unfold try_except, bind at 1, load_global.
  destruct (bool_decide _);
    [|cbn; intros Hrun; injection Hrun as <- <-; cbn; eauto].
  unfold ret at 1. unfold bind at 1, external.
  destruct (amun_service (w_trace w) out payload) as [response|e] eqn:Hresp;
    [|cbn; intros Hrun; injection Hrun as <- <-; cbn; eauto].
  unfold bind at 1, getitem at 1.
  destruct (response !! "inspection_id") as [inspection_id|] eqn:Hid;
    [|cbn; intros Hrun; injection Hrun as <- <-; cbn; eauto].
  cbn. unfold getitem. rewrite Hid. cbn.
  intros Hrun. injection Hrun as <- <-. cbn. eauto.
Qed.

(** X7: a context that is not a dict (a list, a string, a number, as
    [json.loads] may give) makes [context['python'] = ...] raise a
    [TypeError]; the assignment stands before the [try], so the exception
    leaves the wrapper, before any request. *)
Theorem amun_wrapper_type_error `{E : Externals}
    (globals : list string) (out : string) (context : json)
    (p : Project) (count : Z) (w : World) :
  (∀ d, context ≠ JDict d) →
  ∃ msg, _dm_amun_inspect_wrapper globals out context p count w
         = (Raise (TypeError msg), w).
Proof.
  intros Hnd. unfold _dm_amun_inspect_wrapper, bind, to_dict.
  destruct context as [|b|z|s|l|d]; cbn [setitem raise]; eauto.
  by destruct (Hnd d).
Qed.

Lemma amun_wrapper_type_error_witness :
  ∃ msg, _dm_amun_inspect_wrapper ("amun_inspect" :: module_globals)
           "http://amun" (JList []) Scenario.stack 1 Scenario.empty_world
         = (Raise (TypeError msg), Scenario.empty_world).
Proof.
  apply (amun_wrapper_type_error ("amun_inspect" :: module_globals) "http://amun"
           (JList []) Scenario.stack 1 Scenario.empty_world).
  intros d. discriminate.
Defined.

(** X8: when [dependency_monkey] returns an integer instead of a result,
    nothing was traversed or written: no external call was made, no hash,
    file or output changed.  The integer is 3 for a count that is not
    positive, 1 for an Amun destination whose context could not be loaded,
    2 for a context given with a directory destination. *)
Theorem integer_return_means_no_traversal `{E : Externals}
    (globals : list string) (project : Project) (out : string)
    (seed : option Z) (decision : option string) (dry_run : bool)
    (context : option string) (count : option Z) (w : World) (code : Z) :
  let run :=
    dependency_monkey globals project out seed decision dry_run context count w in
  fst run = Ok (RetInt code) →
  w_trace (snd run) = w_trace w ∧
  w_hashes (snd run) = w_hashes w ∧
  w_fs (snd run) = w_fs w ∧
  w_stdout (snd run) = w_stdout w ∧
  ((code = 3 ∧ ∃ c, count = Some c ∧ c ≤ 0) ∨
   (code = 1 ∧
    String.prefix "https://" out || String.prefix "http://" out = true ∧
    ∃ c0 c', context = Some (String c0 c')) ∨
   (code = 2 ∧
    String.prefix "https://" out || String.prefix "http://" out = false ∧
    out ≠ "-" ∧
    ∃ c0 c', context = Some (String c0 c'))).
Proof.
  intros run. subst run.
  destruct (dependency_monkey globals project out seed decision dry_run context
              count w) as [r w'] eqn:Hrun.
  cbn [fst snd]. intros ->. revert Hrun. unfold dependency_monkey.
  destruct (lookup_decision decision) as [f|]; [|done].
  unfold bind at 1, random_seed_call.
  set (w0 := set_random _ w).
  assert (Hnever : ∀ output_function w1,
            run_monkey project output_function f count dry_run w1
            ≠ (Ok (RetInt code), w')).
  { intros output_function w1 Hrun. apply (f_equal fst) in Hrun.
    by apply run_monkey_returns_result in Hrun. }
  destruct (match count with Some c => c <=? 0 | None => false end) eqn:Hcount.
  { cbn. intros Hrun. injection Hrun as <- <-. repeat split; try done.
    left. split; [done|]. destruct count as [c|]; [|done].
    exists c. split; [done|]. by apply Z.leb_le. }
  destruct (String.prefix "https://" out || String.prefix "http://" out) eqn:Hhttp.
  - destruct context as [[|c0 c']|].
    + unfold bind at 1, log. intros Hrun. by destruct (Hnever _ _ Hrun).
    + unfold bind at 1, try_except, bind at 1, load_global.
      destruct (bool_decide _).
      * unfold ret at 1. unfold bind at 1.
        destruct (json_loads (String c0 c')) as [v|e].
        -- unfold ret at 1. intros Hrun. by destruct (Hnever _ _ Hrun).
        -- cbn. intros Hrun. injection Hrun as <- <-. repeat split; try done.
           right. left. eauto.
      * cbn. intros Hrun. injection Hrun as <- <-. repeat split; try done.
        right. left. eauto.
    + unfold bind at 1, log. intros Hrun. by destruct (Hnever _ _ Hrun).
  - destruct (String.eqb_spec out "-") as [->|Hdash].
    { intros Hrun. by destruct (Hnever _ _ Hrun). }
    assert (Hdir : ∀ w1, (let! isdir := os_path_isdir out in
                          (if isdir then ret tt else os_makedirs out) ;;!
                          run_monkey project (_dm_amun_directory_output out)
                                     f count dry_run) w1
                         ≠ (Ok (RetInt code), w')).
    { intros w1. unfold bind at 1, os_path_isdir. unfold bind at 1.
      destruct (match w_fs w1 !! out with Some Dir => true | _ => false end).
      - apply Hnever.
      - destruct (os_makedirs out w1) as [[[]|e] w2]; [|done].
        apply Hnever. }
    destruct context as [[|c0 c']|].
    + intros Hrun. by destruct (Hdir _ Hrun).
    + cbn. intros Hrun. injection Hrun as <- <-. repeat split; try done.
      right. right. repeat split; eauto.
    + intros Hrun. by destruct (Hdir _ Hrun).
Qed.

Lemma integer_return_means_no_traversal_witness :
  let run :=
    dependency_monkey module_globals Scenario.one_dependency "out" (Some 0)
      (Some "all") false (Some "{}") None Scenario.empty_world in
  w_trace (snd run) = [] ∧ w_fs (snd run) = ∅.
Proof.
  destruct (integer_return_means_no_traversal module_globals
              Scenario.one_dependency "out" (Some 0) (Some "all") false
              (Some "{}") None Scenario.empty_world 2 eq_refl)
    as (Htrace & _ & Hfs & _).
  exact (conj Htrace Hfs).
Defined.

(** X9: as the module stands, a context cannot be passed to Amun at all.
    [json.loads] is called on a name that is not bound, the [NameError] is
    caught as a context that failed to load, and every call with an Amun
    destination and a context returns 1 after logging that, without
    generating anything. *)
Theorem amun_context_is_never_loaded `{E : Externals}
    (project : Project) (out : string) (seed : option Z)
    (decision : option string) (dry_run : bool) (c0 : ascii) (c' : string)
    (count : option Z) (w : World) :
  is_Some (lookup_decision decision) →
  match count with Some c => 0 < c | None => True end →
  String.prefix "https://" out || String.prefix "http://" out = true →
  let run :=
    dependency_monkey module_globals project out seed decision dry_run
                      (Some (String c0 c')) count w in
  fst run = Ok (RetInt 1) ∧
  w_log (snd run)
  = w_log w ++ [LogError "Failed to load Amun context that should be passed with generated stacks: %s" []] ∧
  w_trace (snd run) = w_trace w.
Proof.
  intros [f Hf] Hcount Hhttp run. subst run. unfold dependency_monkey.
  rewrite Hf, Hhttp. unfold bind at 1, random_seed_call.
  assert (match count with Some c => c <=? 0 | None => false end = false) as ->.
  { destruct count as [c|]; [|done]. apply Z.leb_gt. lia. }
  unfold bind at 1, try_except, bind at 1.
  by rewrite load_global_unbound by by vm_compute.
Qed.

Lemma amun_context_is_never_loaded_witness :
  fst (dependency_monkey module_globals Scenario.one_dependency "https://amun"
         (Some 0) (Some "all") false (Some "{}") (Some 5) Scenario.empty_world)
  = Ok (RetInt 1).
Proof.
  refine (proj1 (amun_context_is_never_loaded Scenario.one_dependency
            "https://amun" (Some 0) (Some "all") false "{" "}" (Some 5)
            Scenario.empty_world _ _ _)).
  - eexists. reflexivity.
  - cbn. lia.
  - reflexivity.
Defined.

(** ** What holds of every step holds of the whole call *)

Section Whole.
Context `{E : Externals}.
Variable P : World → World → Prop.
Hypothesis P_refl : ∀ w, P w w.
Hypothesis P_trans : ∀ w1 w2 w3, P w1 w2 → P w2 w3 → P w1 w3.
Hypothesis P_log : ∀ rec, preserves P (log rec).
Hypothesis P_external :
  ∀ A (ev : outcome A → event) resp, preserves P (external ev resp).
Hypothesis P_hashes_append : ∀ pv h, preserves P (hashes_append pv h).
Hypothesis P_makedirs : ∀ path, preserves P (os_makedirs path).
Hypothesis P_write_file : ∀ path content, preserves P (write_file path content).
Hypothesis P_write_stdout : ∀ text, preserves P (write_stdout text).
Hypothesis P_random : ∀ r w, P w (set_random r w).

Lemma whole_pure {A} (f : World → outcome A) : preserves P (λ w, (f w, w)).
Proof. intros w r w' Hrun. injection Hrun as <- <-. apply P_refl. Qed.

Ltac whole :=
  repeat first
    [ apply P_log | apply P_external | apply P_hashes_append
    | apply P_makedirs | apply P_write_file | apply P_write_stdout
    | apply (preserves_ret P P_refl)
    | apply (preserves_raise P P_refl)
    | apply (preserves_load_global P P_refl)
    | apply (preserves_getitem P P_refl)
    | apply (preserves_setitem P P_refl)
    | apply (preserves_to_dict P P_refl)
    | apply (preserves_bind P P_trans)
    | apply (preserves_try_except P P_trans)
    | apply (preserves_for_each P P_refl P_trans)
    | apply whole_pure
    | match goal with |- ∀ _, _ => intros ? end ].

Lemma whole_fill (p : Project) : preserves P (_fill_package_digests p).
Proof.
  unfold _fill_package_digests. apply (preserves_bind P P_trans).
  - destruct config_warehouses; whole.
  - intros url. apply (preserves_bind P P_trans); [|whole].
    apply (preserves_for_each P P_refl P_trans). intros pv.
    unfold fill_package_version. apply (preserves_bind P P_trans).
    + apply (whole_pure (λ w, Ok (hashes_of (w_hashes w) (pv_id pv)))).
    + intros [|h hs]; [|whole]. unfold get_package_hashes. whole.
Qed.

Lemma whole_sink (globals : list string) (s : sink) (p : Project) (count : Z) :
  preserves P (sink_function globals s p count).
Proof.
  destruct s as [out context| |out]; cbn [sink_function].
  - unfold _dm_amun_inspect_wrapper. whole.
  - unfold _dm_stdout_output. whole.
  - unfold _dm_amun_directory_output, to_files. whole.
Qed.

Lemma whole_dm_loop (output_function : Project → Z → M (option string))
    (decision_function : list PackageVersion → RandomState → bool * RandomState)
    (count : option Z) (dry_run : bool) (gen : Generator) :
  (∀ p c, preserves P (output_function p c)) →
  ∀ (computed : Z) (out : list string),
    preserves P (dm_loop gen output_function decision_function count dry_run
                         computed out).
Proof.
  intros Hout.
  induction gen as [|p rest IH|partial k IH]; intros computed out; cbn [dm_loop].
  - whole.
  - apply (preserves_bind P P_trans); [apply whole_fill|]. intros gp.
    apply (preserves_bind P P_trans).
    + destruct dry_run; cbn [negb]; [whole|].
      apply (preserves_bind P P_trans); [apply Hout|whole].
    + intros out1. destruct (match count with Some _ => _ | None => _ end);
        [whole|apply IH].
  - apply (preserves_bind P P_trans); [|intros b; apply IH].
    intros w r w' Hrun. unfold decide_on in Hrun.
    destruct (decision_function partial (w_random w)) as [b r'].
    injection Hrun as <- <-. apply P_random.
Qed.

Lemma whole_run_monkey (project : Project)
    (output_function : Project → Z → M (option string))
    (decision_function : list PackageVersion → RandomState → bool * RandomState)
    (count : option Z) (dry_run : bool) :
  (∀ p c, preserves P (output_function p c)) →
  preserves P (run_monkey project output_function decision_function count dry_run).
Proof.
  intros Hout. unfold run_monkey, _do_dependency_monkey, from_project.
  apply (preserves_bind P P_trans); [|whole].
  apply (preserves_bind P P_trans); [whole|]. intros g.
  by apply whole_dm_loop.
Qed.

Lemma whole_dependency_monkey (globals : list string) (project : Project)
    (out : string) (seed : option Z) (decision : option string)
    (dry_run : bool) (context : option string) (count : option Z) :
  preserves P (dependency_monkey globals project out seed decision dry_run
                                 context count).
Proof.
  unfold dependency_monkey.
  destruct (lookup_decision decision) as [f|]; [|whole].
  apply (preserves_bind P P_trans).
  { intros w r w' Hrun. injection Hrun as <- <-. apply P_random. }
  intros _. destruct (match count with Some _ => _ | None => _ end); [whole|].
  destruct (_ || _).
  - destruct context as [[|c0 c']|].
    + apply (preserves_bind P P_trans); [whole|]. intros _.
      apply whole_run_monkey. intros p c.
      exact (whole_sink globals (AmunSink out (JDict [])) p c).
    + apply (preserves_bind P P_trans).
      * apply (preserves_try_except P P_trans); [|whole].
        apply (preserves_bind P P_trans); [whole|]. intros _.
        apply (preserves_bind P P_trans); [|whole].
        apply (whole_pure (λ _, json_loads (String c0 c'))).
      * intros [v|]; [|whole].
        apply whole_run_monkey. intros p c.
        exact (whole_sink globals (AmunSink out v) p c).
    + apply (preserves_bind P P_trans); [whole|]. intros _.
      apply whole_run_monkey. intros p c.
      exact (whole_sink globals (AmunSink out (JDict [])) p c).
  - destruct (String.eqb out "-").
    { apply whole_run_monkey. intros p c.
      exact (whole_sink globals StdoutSink p c). }
    assert (Hdir : preserves P
              (let! isdir := os_path_isdir out in
               (if isdir then ret tt else os_makedirs out) ;;!
               run_monkey project (_dm_amun_directory_output out) f count dry_run)).
    { apply (preserves_bind P P_trans).
      - apply (whole_pure (λ w, Ok match w_fs w !! out with
                                   | Some Dir => true
                                   | _ => false
                                   end)).
      - intros isdir. apply (preserves_bind P P_trans).
        + destruct isdir; whole.
        + intros _. apply whole_run_monkey. intros p c.
          exact (whole_sink globals (DirectorySink out) p c). }
    destruct context as [[|c0 c']|]; [done|whole|done].
Qed.

End Whole.

Section Kept.
Context `{E : Externals}.

Lemma fs_kept_same (w w' : World) : w_fs w' = w_fs w → fs_kept w w'.
Proof.
  intros Heq p. rewrite Heq. destruct (w_fs w !! p) as [[|content]|]; eauto.
Qed.

Lemma fs_kept_trans (w1 w2 w3 : World) :
  fs_kept w1 w2 → fs_kept w2 w3 → fs_kept w1 w3.
Proof.
  intros H12 H23 p. specialize (H12 p). specialize (H23 p).
  destruct (w_fs w1 !! p) as [[|content]|]; [| |done].
  - by rewrite H12 in H23.
  - destruct H12 as [content2 H12]. by rewrite H12 in H23.
Qed.

Lemma makedirs_other (fs : gmap string fsnode) (l : list string) (p : string) :
  p ∉ l → foldr (λ d fs, <[d := Dir]> fs) fs l !! p = fs !! p.
Proof.
  induction l as [|x l IH]; intros Hnin; [done|].
  cbn [foldr]. apply not_elem_of_cons in Hnin as [Hne Hnin].
  rewrite lookup_insert_ne by done. by apply IH.
Qed.

Lemma fs_kept_makedirs (path : string) : preserves fs_kept (os_makedirs path).
Proof.
  intros w r w' Hrun. unfold os_makedirs in Hrun.
  destruct (String.eqb _ _);
    [injection Hrun as <- <-; by apply fs_kept_same|].
  destruct (existsb _ _) eqn:Hfile;
    injection Hrun as <- <-; [by apply fs_kept_same|].
  intros p. cbn [w_fs set_fs].
  destruct (decide (p ∈ ancestors path ++ [path])) as [Hin|Hnin].
  - rewrite (makedirs_lookup _ _ _ Hin).
    destruct (w_fs w !! p) as [[|content]|] eqn:Hp; [done| |done].
    assert (existsb (is_file (w_fs w)) (ancestors path ++ [path]) = true)
      as Htrue; [|congruence].
    apply existsb_exists. exists p. split; [by apply list_elem_of_In|].
    unfold is_file. by rewrite Hp.
  - rewrite makedirs_other by done.
    destruct (w_fs w !! p) as [[|content]|]; eauto.
Qed.

Lemma fs_kept_write_file (path content : string) :
  preserves fs_kept (write_file path content).
Proof.
  intros w r w' Hrun. unfold write_file in Hrun.
  assert (Hins : w_fs w !! path ≠ Some Dir →
                 fs_kept w (set_fs (<[path := File content]> (w_fs w)) w)).
  { intros Hnd p. cbn [w_fs set_fs]. rewrite lookup_insert.
    destruct (decide (path = p)) as [<-|].
    - destruct (w_fs w !! path) as [[|old]|]; eauto. done.
    - destruct (w_fs w !! p) as [[|c]|]; eauto. }
  destruct (w_fs w !! path) as [[|old]|]; injection Hrun as <- <-.
  - by apply fs_kept_same.
  - by apply Hins.
  - by apply Hins.
Qed.

Ltac fs_side :=
  first
    [ apply fs_kept_trans
    | apply fs_kept_makedirs
    | apply fs_kept_write_file
    | unfold preserves; intros;
      match goal with H : _ = (_, _) |- _ => injection H as <- <- end;
      by apply fs_kept_same
    | intros; by apply fs_kept_same ].

Lemma fs_kept_dependency_monkey (globals : list string) (project : Project)
    (out : string) (seed : option Z) (decision : option string)
    (dry_run : bool) (context : option string) (count : option Z) :
  preserves fs_kept (dependency_monkey globals project out seed decision
                                       dry_run context count).
Proof. apply whole_dependency_monkey; fs_side. Qed.

Lemma fs_kept_run_monkey (project : Project) (out : string)
    (decision_function : list PackageVersion → RandomState → bool * RandomState)
    (count : option Z) (dry_run : bool) :
  preserves fs_kept (run_monkey project (_dm_amun_directory_output out)
                                decision_function count dry_run).
Proof.
  assert (Hsink : ∀ p c, preserves fs_kept (_dm_amun_directory_output out p c)).
  { intros p c.
    apply (whole_sink fs_kept) with (globals := []) (s := DirectorySink out);
      fs_side. }
  apply whole_run_monkey; first [exact Hsink|fs_side].
Qed.

Lemma history_grows_refl (w : World) : history_grows w w.
Proof. by repeat split. Qed.

Lemma history_grows_trans (w1 w2 w3 : World) :
  history_grows w1 w2 → history_grows w2 w3 → history_grows w1 w3.
Proof.
  intros (?&?&?&Hh1) (?&?&?&Hh2). repeat split; try (by etrans).
  intros i. etrans; [apply Hh1|apply Hh2].
Qed.

Lemma history_grows_dependency_monkey (globals : list string) (project : Project)
    (out : string) (seed : option Z) (decision : option string)
    (dry_run : bool) (context : option string) (count : option Z) :
  preserves history_grows (dependency_monkey globals project out seed decision
                                             dry_run context count).
Proof.
  apply whole_dependency_monkey;
    first
      [ apply history_grows_refl
      | apply history_grows_trans
      | intros path w r w' Hrun; unfold os_makedirs in Hrun;
        destruct (String.eqb _ _); [by injection Hrun as <- <-|];
        destruct (existsb _ _); by injection Hrun as <- <-
      | intros path content w r w' Hrun; unfold write_file in Hrun;
        destruct (w_fs w !! path) as [[|?]|]; by injection Hrun as <- <-
      | intros pv h w r w' Hrun; injection Hrun as <- <-;
        repeat split; try done; intros i; cbn; rewrite hashes_of_insert;
        destruct (decide (pv_id pv = i)) as [<-|]; [by apply prefix_app_r|done]
      | unfold preserves; intros;
        match goal with H : _ = (_, _) |- _ => injection H as <- <- end;
        repeat split; try done; by apply prefix_app_r
      | intros; by repeat split ].
Qed.

End Kept.

(** X10: a call of [dependency_monkey] deletes nothing and changes the
    kind of nothing in the file system: whatever the destination and the
    outcome, and whether the call returns or raises, a path that was a
    directory is a directory afterwards and a path that was a file is a
    file. *)
Theorem file_system_is_kept `{E : Externals}
    (globals : list string) (project : Project) (out : string)
    (seed : option Z) (decision : option string) (dry_run : bool)
    (context : option string) (count : option Z) (w : World) (p : string) :
  let w' := snd (dependency_monkey globals project out seed decision dry_run
                                   context count w) in
  match w_fs w !! p with
  | Some Dir => w_fs w' !! p = Some Dir
  | Some (File _) => ∃ content, w_fs w' !! p = Some (File content)
  | None => True
  end.
Proof.
  destruct (dependency_monkey _ _ _ _ _ _ _ _ w) as [r w'] eqn:Hrun.
  apply fs_kept_dependency_monkey in Hrun. exact (Hrun p).
Qed.

(** X11: when a call with a directory destination returns a result, the
    destination is a directory, in a dry run too: it is made before the
    traversal if it was not there, and nothing the run writes takes its
    place. *)
Theorem destination_directory_exists `{E : Externals}
    (globals : list string) (project : Project) (out : string)
    (seed : option Z) (decision : option string) (dry_run : bool)
    (context : option string) (count : option Z) (w : World) (res : result) :
  String.prefix "https://" out || String.prefix "http://" out = false →
  out ≠ "-" →
  let run :=
    dependency_monkey globals project out seed decision dry_run context count w in
  fst run = Ok (RetResult res) →
  w_fs (snd run) !! out = Some Dir.
Proof.
  intros Hhttp Hdash run. subst run.
  destruct (dependency_monkey _ _ _ _ _ _ _ _ w) as [r w'] eqn:Hrun.
  cbn [fst snd]. intros ->. revert Hrun. unfold dependency_monkey.
  destruct (lookup_decision decision) as [f|]; [|done].
  unfold bind at 1, random_seed_call. rewrite Hhttp.
  destruct (match count with Some _ => _ | None => _ end); [done|].
  destruct (String.eqb_spec out "-") as [|_]; [done|].
  assert (Hdir : ∀ w1, (let! isdir := os_path_isdir out in
                        (if isdir then ret tt else os_makedirs out) ;;!
                        run_monkey project (_dm_amun_directory_output out)
                                   f count dry_run) w1
                       = (Ok (RetResult res), w') →
                       w_fs w' !! out = Some Dir).
  { intros w1. unfold bind at 1, os_path_isdir. unfold bind at 1.
    destruct (w_fs w1 !! out) as [[|content]|] eqn:Hout.
    - unfold ret at 1. intros Hrun.
      apply fs_kept_run_monkey in Hrun. specialize (Hrun out).
      by rewrite Hout in Hrun.
    - destruct (os_makedirs out w1) as [[[]|e] w2] eqn:Hmk; [|done].
      intros Hrun. apply fs_kept_run_monkey in Hrun. specialize (Hrun out).
      unfold os_makedirs in Hmk. destruct (String.eqb _ _); [done|].
      destruct (existsb _ _); [done|]. injection Hmk as <-.
      cbn [w_fs set_fs] in Hrun.
      rewrite makedirs_lookup in Hrun; [done|].
      apply elem_of_app. right. by left.
    - destruct (os_makedirs out w1) as [[[]|e] w2] eqn:Hmk; [|done].
      intros Hrun. apply fs_kept_run_monkey in Hrun. specialize (Hrun out).
      unfold os_makedirs in Hmk. destruct (String.eqb _ _); [done|].
      destruct (existsb _ _); [done|]. injection Hmk as <-.
      cbn [w_fs set_fs] in Hrun.
      rewrite makedirs_lookup in Hrun; [done|].
      apply elem_of_app. right. by left. }
  destruct context as [[|c0 c']|]; [apply Hdir|done|apply Hdir].
Qed.

Lemma destination_directory_exists_witness :
  w_fs (snd (dependency_monkey module_globals Scenario.one_dependency "out"
               (Some 0) (Some "all") true None (Some 1) Scenario.empty_world))
    !! "out"
  = Some Dir.
Proof.
  apply (destination_directory_exists module_globals Scenario.one_dependency
           "out" (Some 0) (Some "all") true None (Some 1) Scenario.empty_world
           {| output := []; computed := 1 |}).
  - reflexivity.
  - discriminate.
  - by vm_compute.
Defined.

(** X12: a call of [dependency_monkey] only adds to what was there: the
    history of external calls, the logger and standard output start with
    what they held before, and no hash is removed from a package or
    reordered; this holds for a call that raises as well. *)
Theorem history_is_append_only `{E : Externals}
    (globals : list string) (project : Project) (out : string)
    (seed : option Z) (decision : option string) (dry_run : bool)
    (context : option string) (count : option Z) (w : World) :
  let w' := snd (dependency_monkey globals project out seed decision dry_run
                                   context count w) in
  w_trace w `prefix_of` w_trace w' ∧
  w_log w `prefix_of` w_log w' ∧
  w_stdout w `prefix_of` w_stdout w' ∧
  ∀ i, hashes_of (w_hashes w) i `prefix_of` hashes_of (w_hashes w') i.
Proof.
  destruct (dependency_monkey _ _ _ _ _ _ _ _ w) as [r w'] eqn:Hrun.
  apply history_grows_dependency_monkey in Hrun. exact Hrun.
Qed.

(** ** [SetScoreStep] *)

(** X13: [SetScoreStep.run] lets a package through exactly when it agrees
    with each filter that is configured, its locked version with
    [package_version] and the URL of its index with [index_url]; it then
    answers the configured score and no justification, and otherwise turns
    the package down.  The name of the package takes no part in this, nor
    does [package_name] of the configuration. *)
Theorem set_score_run_filters (Score State : Type)
    (configuration : SetScoreStep.Configuration Score) (state : State)
    (pv : SetScoreStep.Candidate) :
  let agrees :=
    (∀ v, SetScoreStep.package_version Score configuration = Some v →
          locked_version (SetScoreStep.candidate pv) = v) ∧
    (∀ u, SetScoreStep.index_url Score configuration = Some u →
          SetScoreStep.index pv = u) in
  (agrees →
   SetScoreStep.run Score State configuration state pv
   = Some (SetScoreStep.score Score configuration, None)) ∧
  (¬ agrees → SetScoreStep.run Score State configuration state pv = None) ∧
  ∀ (other_name : option string) (state' : State) (pv' : SetScoreStep.Candidate),
    locked_version (SetScoreStep.candidate pv')
    = locked_version (SetScoreStep.candidate pv) →
    SetScoreStep.index pv' = SetScoreStep.index pv →
    SetScoreStep.run Score State
      {| SetScoreStep.package_name := other_name;
         SetScoreStep.package_version :=
           SetScoreStep.package_version Score configuration;
         SetScoreStep.index_url := SetScoreStep.index_url Score configuration;
         SetScoreStep.score := SetScoreStep.score Score configuration |}
      state' pv'
    = SetScoreStep.run Score State configuration state pv.
Proof.
  intros agrees. subst agrees. unfold SetScoreStep.run.
  destruct configuration as [pn vo uo sc]. cbn.
  split; [|split].
  - intros [Hv Hu].
    destruct vo as [v|], uo as [u|];
      rewrite ?(Hv _ eq_refl), ?(Hu _ eq_refl), ?String.eqb_refl; done.
  - intros Hnot.
    destruct vo as [v|].
    + destruct (String.eqb_spec (locked_version (SetScoreStep.candidate pv)) v)
        as [Hv|]; [|done]. cbn.
      destruct uo as [u|].
      * destruct (String.eqb_spec (SetScoreStep.index pv) u) as [Hu|]; [|done].
        destruct Hnot. split; congruence.
      * destruct Hnot. split; congruence.
    + cbn. destruct uo as [u|].
      * destruct (String.eqb_spec (SetScoreStep.index pv) u) as [Hu|]; [|done].
        destruct Hnot. split; congruence.
      * destruct Hnot. split; congruence.
  - by intros other_name state' pv' -> ->.
Qed.

Lemma set_score_run_filters_witness :
  SetScoreStep.run Z unit
    {| SetScoreStep.package_name := Some "flask";
       SetScoreStep.package_version := Some "1.0";
       SetScoreStep.index_url := None;
       SetScoreStep.score := Some 1 |}
    tt
    {| SetScoreStep.candidate := Scenario.flask;
       SetScoreStep.index := "https://pypi.org/simple" |}
  = Some (Some 1, None).
Proof.
  apply (set_score_run_filters Z unit). split.
  - intros v Hv. injection Hv as <-. reflexivity.
  - intros u Hu. discriminate.
Defined.

(** X14: [SetScoreStep.pre_run] makes sure there is a score.  Provided
    [Unit.pre_run] leaves the configuration as it finds it: after
    [pre_run] the score is set, so [run] never answers a missing score; the
    filters are untouched; a score that was configured is kept and nothing
    is drawn from [random] for it; and a second [pre_run] changes nothing
    more in the configuration. *)
Theorem set_score_pre_run_sets_score `{E : Externals} (Score State : Type)
    (random_uniform : RandomState → Score * RandomState)
    (unit_pre_run : SetScoreStep.Configuration Score → RandomState
                    → SetScoreStep.Configuration Score * RandomState)
    (configuration : SetScoreStep.Configuration Score) (r : RandomState) :
  (∀ c r0, fst (unit_pre_run c r0) = c) →
  let after :=
    SetScoreStep.pre_run Score random_uniform unit_pre_run configuration r in
  is_Some (SetScoreStep.score Score (fst after)) ∧
  SetScoreStep.package_version Score (fst after)
  = SetScoreStep.package_version Score configuration ∧
  SetScoreStep.index_url Score (fst after)
  = SetScoreStep.index_url Score configuration ∧
  (∀ x, SetScoreStep.score Score configuration = Some x →
        fst after = configuration ∧ snd after = snd (unit_pre_run configuration r)) ∧
  (∀ r', fst (SetScoreStep.pre_run Score random_uniform unit_pre_run
                (fst after) r') = fst after) ∧
  ∀ (state : State) (pv : SetScoreStep.Candidate),
    SetScoreStep.run Score State (fst after) state pv ≠ Some (None, None).
Proof.
  intros Hunit after.
  assert (Hscore : is_Some (SetScoreStep.score Score (fst after)) ∧
                   SetScoreStep.package_version Score (fst after)
                   = SetScoreStep.package_version Score configuration ∧
                   SetScoreStep.index_url Score (fst after)
                   = SetScoreStep.index_url Score configuration).
  { subst after. unfold SetScoreStep.pre_run.
    destruct (SetScoreStep.score Score configuration) as [x|] eqn:Hx.
    - rewrite Hunit, Hx. eauto.
    - destruct (random_uniform r) as [x r']. rewrite Hunit. cbn. eauto. }
  destruct Hscore as ([x Hx] & Hv & Hu).
  split; [by exists x|]. split; [done|]. split; [done|]. split; [|split].
  - intros y Hy. subst after. unfold SetScoreStep.pre_run. rewrite Hy.
    by rewrite Hunit.
  - intros r'. unfold SetScoreStep.pre_run at 1. rewrite Hx. apply Hunit.
  - intros state pv. unfold SetScoreStep.run. rewrite Hx.
    by destruct (_ || _).
Qed.

Lemma set_score_pre_run_sets_score_witness :
  is_Some (SetScoreStep.score Z
             (fst (SetScoreStep.pre_run (E := Scenario.externals) Z
                     (λ r, (r, Scenario.lcg r)) (λ c r, (c, r))
                     (SetScoreStep.CONFIGURATION_DEFAULT Z) 7))).
Proof.
  refine (proj1 (set_score_pre_run_sets_score (E := Scenario.externals) Z unit
            (λ r, (r, Scenario.lcg r)) (λ c r, (c, r))
            (SetScoreStep.CONFIGURATION_DEFAULT Z) 7 _)).
  reflexivity.
Defined.

(** ** More on the loop *)

Lemma dm_loop_nothing_recorded `{E : Externals}
    (output_function : Project → Z → M (option string))
    (decision_function : list PackageVersion → RandomState → bool * RandomState)
    (count : option Z) (dry_run : bool) (gen : Generator) :
  (∀ p c w entry w', output_function p c w = (Ok entry, w') → entry = None) →
  ∀ (computed : Z) (out : list string) (w : World) res w',
    dm_loop gen output_function decision_function count dry_run computed out w
    = (Ok res, w') →
    output res = out.
Proof.
  intros Hnone.
  induction gen as [|p rest IH|partial k IH]; intros computed out w res w' Hrun;
    cbn [dm_loop] in Hrun.
  - by injection Hrun as <- <-.
  - unfold bind at 1 in Hrun.
    destruct (_fill_package_digests p w) as [[gp|e] w1]; [|done].
    unfold bind at 1 in Hrun.
    set (step := if negb dry_run then _ else _) in Hrun.
    destruct (step w1) as [[out1|e] w2] eqn:Hstep; [|done].
    assert (out1 = out) as ->.
    { subst step. destruct dry_run; cbn in Hstep; [by injection Hstep as <-|].
      unfold bind in Hstep.
      destruct (output_function gp (computed + 1) w1) as [[entry|e] w3] eqn:Hcall;
        [|done].
      apply Hnone in Hcall as ->. by injection Hstep as <-. }
    destruct (match count with Some _ => _ | None => _ end).
    + by injection Hrun as <- <-.
    + by eapply IH.
  - unfold bind at 1 in Hrun.
    destruct (decide_on decision_function partial w) as [[b|e] w1]; [|done].
    by eapply IH.
Qed.

(** X15: without a bound on the count, a run that returns has counted
    every project the walk admits, whichever of the three sinks is in
    use. *)
Theorem unbounded_run_counts_every_stack `{E : Externals}
    (globals : list string) (project : Project) (s : sink)
    (decision_function : list PackageVersion → RandomState → bool * RandomState)
    (dry_run : bool) (w : World) :
  match fst (_do_dependency_monkey project (sink_function globals s)
                                   decision_function None dry_run w) with
  | Ok res =>
      ∃ g, graph_from_project (w_trace w) project = Ok g ∧
           computed res
           = Z.of_nat (length (drain (walk g) decision_function (w_random w)))
  | Raise _ => True
  end.
Proof.
  unfold _do_dependency_monkey, bind at 1, from_project, external.
  destruct (graph_from_project (w_trace w) project) as [g|e]; [|done].
  destruct (dm_loop _ _ _ _ _ _ _ _) as [[res|e] w'] eqn:Hloop; [|done].
  exists g. split; [done|].
  apply dm_loop_computed in Hloop; [|intros; apply same_random_sink|done].
  cbn in Hloop. by rewrite Hloop.
Qed.

(** X16: as the module stands, a call with an Amun destination never
    records an inspection: whatever the project, the seed and the answers
    of Amun would be, a result that is returned has an empty [output]. *)
Theorem amun_destination_records_nothing `{E : Externals}
    (project : Project) (out : string) (seed : option Z)
    (decision : option string) (dry_run : bool) (context : option string)
    (count : option Z) (w : World) (res : result) :
  String.prefix "https://" out || String.prefix "http://" out = true →
  fst (dependency_monkey module_globals project out seed decision dry_run
                         context count w) = Ok (RetResult res) →
  output res = [].
Proof.
  intros Hhttp.
  destruct (dependency_monkey _ _ _ _ _ _ _ _ w) as [r w'] eqn:Hrun.
  cbn [fst]. intros ->. revert Hrun. unfold dependency_monkey.
  destruct (lookup_decision decision) as [f|]; [|done].
  unfold bind at 1, random_seed_call. rewrite Hhttp.
  destruct (match count with Some _ => _ | None => _ end); [done|].
  assert (Hnone : ∀ p c w1 entry w2,
            _dm_amun_inspect_wrapper module_globals out (JDict []) p c w1
            = (Ok entry, w2) → entry = None).
  { intros p c w1 entry w2.
    unfold _dm_amun_inspect_wrapper, bind at 1, to_dict. unfold bind at 1.
    cbn [setitem]. unfold ret at 1. unfold try_except, bind at 1.
    rewrite load_global_unbound by by vm_compute.
    cbn. by intros [= <- _]. }
  assert (Hrun : ∀ w1, run_monkey project
                         (_dm_amun_inspect_wrapper module_globals out (JDict []))
                         f count dry_run w1 = (Ok (RetResult res), w') →
                       output res = []).
  { intros w1. unfold run_monkey, bind at 1, _do_dependency_monkey, bind at 1.
    destruct (from_project project w1) as [[g|e] w2]; [|done].
    destruct (dm_loop _ _ _ _ _ _ _ _) as [[res'|e] w3] eqn:Hloop; [|done].
    cbn. intros [= <- _]. by eapply dm_loop_nothing_recorded. }
  destruct context as [[|c0 c']|].
  - unfold bind at 1, log. apply Hrun.
  - unfold bind at 1, try_except, bind at 1.
    rewrite load_global_unbound by by vm_compute. by cbn.
  - unfold bind at 1, log. apply Hrun.
Qed.

Lemma amun_destination_records_nothing_witness :
  match fst (dependency_monkey module_globals Scenario.one_dependency
               "http://amun" (Some 0) (Some "all") false None None
               Scenario.empty_world) with
  | Ok (RetResult res) => output res = []
  | _ => True
  end.
Proof.
  destruct (fst (dependency_monkey module_globals Scenario.one_dependency
                   "http://amun" (Some 0) (Some "all") false None None
                   Scenario.empty_world)) as [[res|code]|e] eqn:Hrun;
    try exact I.
  exact (amun_destination_records_nothing Scenario.one_dependency "http://amun"
           (Some 0) (Some "all") false None None Scenario.empty_world res
           eq_refl Hrun).
Defined.
